(** * civicChain: the complaint confirmation and evidence-resubmission workflow

    A shallow embedding of the profile screen's workflow
    (ProfileScreen.tsx): the EXIF helpers [parseRational], [dmsToDecimal]
    and [getCoordsFromExif], the confirmation predicate
    [isRecentlyUpdated], and the two actions [handleAcceptStatus] and
    [handleRejectStatus] / [handleImageSelection] with the collaborators
    they call (image picker, positioning, geocoder, object storage and the
    complaints table). Beside it: the list of the profile screen
    ([fetchUserComplaints]), the labels, list and counts of the home screen
    (HomeScreen.tsx: [makeTitleCase], [fetchComplaintsAndCounts]) and the
    submission of a new complaint (AddComplaintScreen.tsx: [handleSubmit]).

    Modelling conventions.
    - A JavaScript number is an exact rational extended with the two
      infinities and NaN; the rounding, overflow and underflow of IEEE
      doubles and the sign of zero are not represented.
    - An instant is an integer count of milliseconds since the epoch.
    - Every collaborator answers from an environment record [Env]; the
      workflow threads a [World] (table, bucket, log of visible effects)
      through a small state-and-exception monad.
    - console.log / console.error output is not part of the model. *)

From Stdlib Require Import ZArith QArith Qreduction Lqa Ascii String.
From stdpp Require Import base option list gmap strings pretty sorting.

Local Open Scope string_scope.
Local Open Scope Z_scope.

(** ** JavaScript numbers *)

Module Num.

Inductive number : Type :=
| Fin (q : Q)
| PInf
| NInf
| NaN.

Definition of_Z (z : Z) : number := Fin (inject_Z z).

Definition isNaN (n : number) : bool :=
  match n with NaN => true | _ => false end.

(** [n === 0] on numbers. *)
Definition is_zero (n : number) : bool :=
  match n with Fin q => Qeq_bool q 0 | _ => false end.

(** ToBoolean on a number: 0 and NaN are falsy. *)
Definition truthy (n : number) : bool :=
  match n with
  | Fin q => negb (Qeq_bool q 0)
  | NaN => false
  | PInf | NInf => true
  end.

Definition Qpos_b (q : Q) : bool := negb (Qle_bool q 0).
Definition Qneg_b (q : Q) : bool := negb (Qle_bool 0 q).

Definition neg (n : number) : number :=
  match n with
  | Fin q => Fin (Qred (- q))
  | PInf => NInf
  | NInf => PInf
  | NaN => NaN
  end.

Definition add (a b : number) : number :=
  match a, b with
  | NaN, _ | _, NaN => NaN
  | Fin x, Fin y => Fin (Qred (x + y))
  | PInf, NInf | NInf, PInf => NaN
  | PInf, _ | _, PInf => PInf
  | NInf, _ | _, NInf => NInf
  end.

Definition sub (a b : number) : number := add a (neg b).

(** The infinity carrying the sign of [q] ([q] is not zero). *)
Definition inf_sign (q : Q) : number := if Qpos_b q then PInf else NInf.

Definition div (a b : number) : number :=
  match a, b with
  | NaN, _ | _, NaN => NaN
  | Fin x, Fin y =>
      if Qeq_bool y 0
      then (if Qeq_bool x 0 then NaN else inf_sign x)
      else Fin (Qred (x / y))
  | Fin _, (PInf | NInf) => Fin 0
  | (PInf | NInf), (PInf | NInf) => NaN
  | PInf, Fin y => if Qneg_b y then NInf else PInf
  | NInf, Fin y => if Qneg_b y then PInf else NInf
  end.

(** [a > b] and [a <= b]; every comparison with NaN is false. *)
Definition gt (a b : number) : bool :=
  match a, b with
  | NaN, _ | _, NaN => false
  | Fin x, Fin y => negb (Qle_bool x y)
  | PInf, PInf => false
  | PInf, _ => true
  | _, PInf => false
  | NInf, _ => false
  | Fin _, NInf => true
  end.

Definition le (a b : number) : bool :=
  match a, b with
  | NaN, _ | _, NaN => false
  | Fin x, Fin y => Qle_bool x y
  | _, PInf => true
  | PInf, _ => false
  | NInf, _ => true
  | Fin _, NInf => false
  end.

Definition lt (a b : number) : bool := gt b a.

(** [a || b] on numbers. *)
Definition or_else (a b : number) : number := if truthy a then a else b.

End Num.
Export Num.

(** ** Strings: [includes], [split] and the StringToNumber conversion *)

Module Str.

Definition chars (s : string) : list ascii := list_ascii_of_string s.
Definition unchars (l : list ascii) : string := string_of_list_ascii l.

Definition ascii_eqb (a b : ascii) : bool := Ascii.eqb a b.

(** [s.includes(c)] for a one-character needle. *)
Definition includes (c : ascii) (s : string) : bool :=
  existsb (ascii_eqb c) (chars s).

(** [s.split(c)] for a one-character separator: never empty. *)
Fixpoint split_chars (c : ascii) (l : list ascii) : list (list ascii) :=
  match l with
  | [] => [[]]
  | x :: r =>
      if ascii_eqb x c then [] :: split_chars c r
      else match split_chars c r with
           | [] => [[x]]
           | p :: ps => (x :: p) :: ps
           end
  end.

Definition split (c : ascii) (s : string) : list string :=
  map unchars (split_chars c (chars s)).

(** White space and line terminators within ASCII (TAB, LF, VT, FF, CR,
    SP); the non-ASCII ones are outside this model of strings. *)
Definition is_space (c : ascii) : bool :=
  let n := nat_of_ascii c in
  (Nat.eqb n 9 || Nat.eqb n 10 || Nat.eqb n 11 || Nat.eqb n 12
   || Nat.eqb n 13 || Nat.eqb n 32)%bool.

Fixpoint drop_space (l : list ascii) : list ascii :=
  match l with
  | c :: r => if is_space c then drop_space r else l
  | [] => []
  end.

Definition trim (l : list ascii) : list ascii :=
  rev (drop_space (rev (drop_space l))).

Definition digit_val (c : ascii) : option Z :=
  let n := Z.of_nat (nat_of_ascii c) in
  if (48 <=? n) && (n <=? 57) then Some (n - 48) else None.

Definition hex_val (c : ascii) : option Z :=
  let n := Z.of_nat (nat_of_ascii c) in
  if (48 <=? n) && (n <=? 57) then Some (n - 48)
  else if (97 <=? n) && (n <=? 102) then Some (n - 87)
  else if (65 <=? n) && (n <=? 70) then Some (n - 55)
  else None.

(** Reads the longest run of digits of the given base: the value read so
    far, the number of digits read, and the rest of the input. *)
Fixpoint read_digits (base : Z) (val : ascii -> option Z)
    (acc : Z) (cnt : nat) (l : list ascii) : Z * nat * list ascii :=
  match l with
  | c :: r =>
      match val c with
      | Some d => if d <? base then read_digits base val (acc * base + d) (S cnt) r
                  else (acc, cnt, l)
      | None => (acc, cnt, l)
      end
  | [] => (acc, cnt, l)
  end.

Definition pow10 (e : Z) : Q :=
  if 0 <=? e then inject_Z (10 ^ e) else Qinv (inject_Z (10 ^ (- e))).

(** The exponent part of a decimal literal: [e] or [E], an optional sign,
    and at least one digit, up to the end of the input. *)
Definition read_exponent (l : list ascii) : option Z :=
  match l with
  | [] => Some 0
  | c :: r =>
      if ascii_eqb c "e"%char || ascii_eqb c "E"%char then
        let '(sgn, r1) :=
          match r with
          | s :: r' =>
              if ascii_eqb s "-"%char then (-1, r')
              else if ascii_eqb s "+"%char then (1, r')
              else (1, r)
          | [] => (1, r)
          end in
        match read_digits 10 digit_val 0 0 r1 with
        | (e, S _, []) => Some (sgn * e)
        | _ => None
        end
      else None
  end.

(** An unsigned decimal literal: digits, an optional fraction, an
    optional exponent; one of the two digit runs may be empty. *)
Definition read_unsigned (l : list ascii) : number :=
  let '(ip, ni, r1) := read_digits 10 digit_val 0 0 l in
  let '(fp, nf, r2) :=
    match r1 with
    | c :: r' => if ascii_eqb c "."%char then read_digits 10 digit_val 0 0 r'
                 else (0, O, r1)
    | [] => (0, O, r1)
    end in
  match ni, nf with
  | O, O => NaN
  | _, _ =>
      match read_exponent r2 with
      | Some e =>
          Fin (Qred ((inject_Z ip + inject_Z fp * pow10 (- Z.of_nat nf)) * pow10 e))
      | None => NaN
      end
  end.

Definition read_radix (base : Z) (l : list ascii) : number :=
  match read_digits base hex_val 0 0 l with
  | (v, S _, []) => of_Z v
  | _ => NaN
  end.

Definition Infinity_chars : list ascii := chars "Infinity".

Definition list_ascii_eqb (a b : list ascii) : bool :=
  String.eqb (unchars a) (unchars b).

Definition read_decimal (l : list ascii) : number :=
  if list_ascii_eqb l Infinity_chars then PInf else read_unsigned l.

(** StringToNumber: the string converts to 0 when it is empty or blank,
    to the value of its numeric literal when it is one, and to NaN
    otherwise. *)
Definition StringToNumber (s : string) : number :=
  match trim (chars s) with
  | [] => Fin 0
  | c :: r =>
      if ascii_eqb c "-"%char then neg (read_decimal r)
      else if ascii_eqb c "+"%char then read_decimal r
      else if ascii_eqb c "0"%char then
        match r with
        | x :: r' =>
            if ascii_eqb x "x"%char || ascii_eqb x "X"%char then read_radix 16 r'
            else if ascii_eqb x "o"%char || ascii_eqb x "O"%char then read_radix 8 r'
            else if ascii_eqb x "b"%char || ascii_eqb x "B"%char then read_radix 2 r'
            else read_decimal (c :: r)
        | [] => Fin 0
        end
      else read_decimal (c :: r)
  end.

End Str.
Export Str.

(** ** Values, as the EXIF record of an image asset carries them *)

Local Set Warnings "-register-all".

Inductive value : Type :=
| JUndefined
| JNull
| JBool (b : bool)
| JNumber (n : number)
| JString (s : string)
| JArray (l : list value)
| JObject.

(** ToBoolean. *)
Definition truthy_value (v : value) : bool :=
  match v with
  | JUndefined | JNull => false
  | JBool b => b
  | JNumber n => truthy n
  | JString s => negb (String.eqb s "")
  | JArray _ | JObject => true
  end.

(** The number an array converts to, through its string form: the empty
    array prints as the empty string, a one-element array as its element
    (nothing for null and undefined), and a longer one contains a comma. A
    number survives printing and reading back. *)
Fixpoint joined_num (v : value) : number :=
  match v with
  | JUndefined | JNull => Fin 0
  | JBool _ | JObject => NaN
  | JNumber n => n
  | JString s => StringToNumber s
  | JArray [] => Fin 0
  | JArray [x] => joined_num x
  | JArray _ => NaN
  end.

(** [Number(v)]. *)
Definition Number (v : value) : number :=
  match v with
  | JUndefined => NaN
  | JNull => Fin 0
  | JBool b => if b then Fin 1 else Fin 0
  | JNumber n => n
  | JString s => StringToNumber s
  | JArray l => joined_num (JArray l)
  | JObject => NaN
  end.

(** ** The EXIF helpers *)

(** A component of a triple as a number: a number as it is, the quotient
    of a text [n/d], and otherwise [Number(value) || 0]. *)
Definition parseRational (value : value) : number :=
  match value with
  | JNumber n => n
  | JString s =>
      let whole := or_else (Number value) (Fin 0) in
      if includes "/"%char s then
        match map StringToNumber (split "/"%char s) with
        | n :: d :: _ =>
            if negb (isNaN n) && negb (isNaN d) && negb (is_zero d)
            then div n d
            else whole
        | _ => whole
        end
      else whole
  | _ => or_else (Number value) (Fin 0)
  end.

(** [ref && (ref === 'S' || ref === 'W')]. *)
Definition south_or_west (ref : value) : bool :=
  truthy_value ref &&
  match ref with
  | JString r => String.eqb r "S" || String.eqb r "W"
  | _ => false
  end.

(** Degrees, minutes and seconds to decimal degrees; null ([None]) when
    [dms] is no array of three or a component is NaN. *)
Definition dmsToDecimal (dms ref : value) : option number :=
  match dms with
  | JArray (d0 :: d1 :: d2 :: _) =>
      let deg := parseRational d0 in
      let min := parseRational d1 in
      let sec := parseRational d2 in
      if existsb isNaN [deg; min; sec] then None
      else
        let dec := add (add deg (div min (Fin 60))) (div sec (Fin 3600)) in
        Some (if south_or_west ref then neg dec else dec)
  | _ => None
  end.

Record Exif : Type := {
  GPSLatitude : value;
  GPSLatitudeRef : value;
  GPSLongitude : value;
  GPSLongitudeRef : value
}.

Record Coords : Type := { latitude : number; longitude : number }.

(** [a || a?.values] where [a] is a property of the EXIF record: a falsy
    [a] is a primitive, whose [values] property is undefined. *)
Definition or_values (a : value) : value :=
  if truthy_value a then a else JUndefined.

(** Both coordinates of the EXIF record, or null. Nothing in the body can
    throw on the values modelled here, so its [try] is left out. *)
Definition getCoordsFromExif (exif : Exif) : option Coords :=
  match dmsToDecimal (or_values (GPSLatitude exif)) (GPSLatitudeRef exif),
        dmsToDecimal (or_values (GPSLongitude exif)) (GPSLongitudeRef exif) with
  | Some lat, Some lon => Some {| latitude := lat; longitude := lon |}
  | _, _ => None
  end.

(** An integer as a value. *)
Definition num (z : Z) : value := JNumber (of_Z z).

(** ** The complaints table *)

Inductive Status : Type := pending | verified | resolved.

(** A timestamp column as the screen receives it: nothing (null, undefined
    or the empty string), a text that [new Date] cannot read, or an
    instant in milliseconds. *)
Inductive Timestamp : Type :=
| ts_absent
| ts_invalid
| ts_at (ms : Z).

Module Columns.

Record Complaint : Type := {
  title : string;
  description : string;
  category_id : Z;
  status : Status;
  created_at : Timestamp;
  updated_at : Timestamp;
  submitted_date : Timestamp;
  location : string;
  latitude : option Q;
  longitude : option Q;
  photo_url : string;
  created_by : string
}.

End Columns.
Export Columns (Complaint).

(** The object handed to [update]: each column is either assigned or left
    out of the request. *)
Record Patch : Type := {
  set_title : option string;
  set_description : option string;
  set_category_id : option Z;
  set_status : option Status;
  set_submitted_date : option Z;
  set_location : option string;
  set_latitude : option number;
  set_longitude : option number;
  set_photo_url : option string
}.

(** A number in a JSON request body: NaN and the infinities are sent as
    null. *)
Definition json_number (n : number) : option Q :=
  match n with Fin q => Some q | _ => None end.

Definition apply_patch (p : Patch) (c : Complaint) : Complaint :=
  {| Columns.title := default (Columns.title c) (set_title p);
     Columns.description := default (Columns.description c) (set_description p);
     Columns.category_id := default (Columns.category_id c) (set_category_id p);
     Columns.status := default (Columns.status c) (set_status p);
     Columns.created_at := Columns.created_at c;
     Columns.updated_at := Columns.updated_at c;
     Columns.submitted_date :=
       default (Columns.submitted_date c) (ts_at <$> set_submitted_date p);
     Columns.location := default (Columns.location c) (set_location p);
     Columns.latitude := default (Columns.latitude c) (json_number <$> set_latitude p);
     Columns.longitude := default (Columns.longitude c) (json_number <$> set_longitude p);
     Columns.photo_url := default (Columns.photo_url c) (set_photo_url p);
     Columns.created_by := Columns.created_by c |}.

(** Modelled from the spec: the assignment of [updated_at] by the server on
    every mutation of a row; the table definition is not among the client
    sources. [at_time] is the server's clock when the write commits. *)
Definition touch (at_time : Z) (c : Complaint) : Complaint :=
  {| Columns.title := Columns.title c;
     Columns.description := Columns.description c;
     Columns.category_id := Columns.category_id c;
     Columns.status := Columns.status c;
     Columns.created_at := Columns.created_at c;
     Columns.updated_at := ts_at at_time;
     Columns.submitted_date := Columns.submitted_date c;
     Columns.location := Columns.location c;
     Columns.latitude := Columns.latitude c;
     Columns.longitude := Columns.longitude c;
     Columns.photo_url := Columns.photo_url c;
     Columns.created_by := Columns.created_by c |}.

Definition write_row (at_time : Z) (p : Patch) (c : Complaint) : Complaint :=
  touch at_time (apply_patch p c).

(** ** The confirmation predicate *)

Definition ts_truthy (t : Timestamp) : bool :=
  match t with ts_absent => false | _ => true end.

(** [new Date(t).getTime()]; the absent case is never reached behind the
    guard of [isRecentlyUpdated]. *)
Definition getTime (t : Timestamp) : number :=
  match t with
  | ts_at ms => of_Z ms
  | ts_invalid | ts_absent => NaN
  end.

Definition isRecentlyUpdated (now : Z) (complaint : Complaint) : bool :=
  if negb (ts_truthy (Columns.updated_at complaint))
     || negb (ts_truthy (Columns.submitted_date complaint))
  then false
  else
    let updated := getTime (Columns.updated_at complaint) in
    let submitted := getTime (Columns.submitted_date complaint) in
    let daysSinceUpdate :=
      div (sub (of_Z now) updated) (of_Z (1000 * 60 * 60 * 24)) in
    let isUpdatedAfterSubmit := gt updated submitted in
    isUpdatedAfterSubmit && le daysSinceUpdate (Fin 7).

(** ** Collaborators and the world they act on *)

Definition Error : Type := string.

(** How an awaited promise settles. *)
Inductive Outcome (A : Type) : Type :=
| Resolved (a : A)
| Rejected (e : Error).
Arguments Resolved {A} a.
Arguments Rejected {A} e.

Definition Blob : Type := list Byte.byte.

Record Asset : Type := { uri : string; exif : option Exif }.

Record PickerResult : Type := { canceled : bool; assets : list Asset }.

Record Address : Type := {
  street : option string;
  city : option string;
  region : option string;
  country : option string
}.

Record StoredObject : Type := { content : Blob; contentType : string }.

Inductive Source : Type := camera | gallery.

Inductive Button : Type := CameraButton | GalleryButton | CancelButton.

(** Calls that leave the screen, in the order the log records them. *)
Inductive Call : Type :=
| RequestCameraPermissions
| RequestMediaLibraryPermissions
| LaunchCamera
| LaunchImageLibrary
| RequestForegroundPermissions
| GetCurrentPosition
| ReverseGeocode (at_coords : Coords)
| Fetch (from_uri : string)
| StorageUpload (key : string)
| TableSelect (id : Z)
| TableUpdate (id : Z) (p : Patch).

Inductive Event : Type :=
| Called (c : Call)
| Alerted (heading message : string)
| Refreshed.

(** What the collaborators answer during one run. *)
Record Env : Type := {
  camera_granted : Outcome bool;
  media_granted : Outcome bool;
  launched : Source -> Outcome PickerResult;
  foreground_status : Outcome string;
  current_position : Outcome Coords;
  reverse_geocode : Coords -> Outcome (list Address);
  fetched : string -> Outcome Blob;
  upload_error : option Error;
  public_url : string -> string;
  select_error : option Error;
  update_error : option Error;
  pressed : Button;
  date_now : Z;
  new_date : Z;
  commit_time : Z
}.

Record World : Type := {
  table : gmap Z Complaint;
  bucket : gmap string StoredObject;
  log : list Event
}.

(** ** A state monad with early return and exceptions *)

Inductive Res (A : Type) : Type :=
| Val (a : A)
| Return
| Throw (e : Error).
Arguments Val {A} a.
Arguments Return {A}.
Arguments Throw {A} e.

Definition M (A : Type) : Type := World -> World * Res A.

Definition ret {A} (a : A) : M A := fun w => (w, Val a).

Definition bind {A B} (m : M A) (k : A -> M B) : M B :=
  fun w =>
    match m w with
    | (w', Val a) => k a w'
    | (w', Return) => (w', Return)
    | (w', Throw e) => (w', Throw e)
    end.

Declare Scope js_scope.
Delimit Scope js_scope with js.
Notation "'let!' x := m 'in' k" := (bind m (fun x => k))
  (at level 10, x name, m at level 100, k at level 200) : js_scope.
Notation "'let!' ' pat := m 'in' k" := (bind m (fun x => match x with pat => k end))
  (at level 10, pat pattern, m at level 100, k at level 200) : js_scope.
Notation "m ;; k" := (bind m (fun _ => k))
  (at level 100, k at level 200, right associativity) : js_scope.
Local Open Scope js_scope.

Definition jsreturn {A} : M A := fun w => (w, Return).
Definition throw {A} (e : Error) : M A := fun w => (w, Throw e).

Definition emit (ev : Event) : M unit :=
  fun w => ({| table := table w; bucket := bucket w; log := log w ++ [ev] |}, Val tt).

Definition alert (heading message : string) : M unit := emit (Alerted heading message).

Definition await {A} (c : Call) (o : Outcome A) : M A :=
  emit (Called c) ;;
  match o with
  | Resolved a => ret a
  | Rejected e => throw e
  end.

(** [try { body } catch (error) { handler(error) }] around the whole body
    of an async function: an early return ends the function. *)
Definition try_catch (body : M unit) (handler : Error -> M unit) : World -> World :=
  fun w =>
    match body w with
    | (w', Throw e) => fst (handler e w')
    | (w', _) => w'
    end.

(** [error.message || fallback]. *)
Definition message_or (e : Error) (fallback : string) : string :=
  if String.eqb e "" then fallback else e.

(** ** The workflow *)

Definition quote : string := String (ascii_of_nat 34) EmptyString.

Definition no_rows_message : Error :=
  "JSON object requested, multiple (or no) rows returned".

Definition already_exists_message : Error := "The resource already exists".

Definition placeholder_address : string := "Location not available".

(** [parts.filter(Boolean).join(', ')]. *)
Definition join_parts (parts : list (option string)) : string :=
  let kept := omap (fun p => match p with
                             | Some s => if String.eqb s "" then None else Some s
                             | None => None
                             end) parts in
  match kept with
  | [] => ""
  | s :: r => fold_left (fun acc x => acc ++ ", " ++ x) r s
  end.

(** [uri.split('.').pop() || 'jpg']. *)
Definition file_extension (uri : string) : string :=
  let ext := List.last (split "."%char uri) "" in
  if String.eqb ext "" then "jpg" else ext.

Definition accept_patch (futureDate : Z) : Patch :=
  {| set_title := None; set_description := None; set_category_id := None;
     set_status := Some verified;
     set_submitted_date := Some futureDate;
     set_location := None; set_latitude := None; set_longitude := None;
     set_photo_url := None |}.

Definition reject_patch (url : string) (lat lon : number) (address : string)
    (futureDate : Z) : Patch :=
  {| set_title := None; set_description := None; set_category_id := None;
     set_status := Some pending;
     set_submitted_date := Some futureDate;
     set_location := Some address;
     set_latitude := Some lat;
     set_longitude := Some lon;
     set_photo_url := Some url |}.

Definition accept_ok_message : string :=
  "The complaint status has been updated to " ++ quote ++ "verified" ++ quote ++ ".".

Definition success_message : string :=
  "Image and location updated successfully! Status changed to pending.".

Definition gps_message : string :=
  "Could not get GPS location. Please enable location services.".

(** The picked asset, if the picker was not dismissed. *)
Definition picked (result : PickerResult) : option Asset :=
  if canceled result then None else head (assets result).

(** The columns read by the select of [handleRejectStatus]. *)
Record ComplaintData : Type := {
  data_title : string;
  data_description : string;
  data_category_id : Z
}.

Section Workflow.

Variable env : Env.

(** [fetchUserComplaints()], not awaited: it reads the table into the
    screen's list and changes nothing in the store. *)
Definition fetchUserComplaints : M unit := emit Refreshed.

(** [supabase.from('complaints').update(p).eq('id', id)]: the error of the
    answer, if any. A write that matches no row is not an error. *)
Definition table_update (id : Z) (p : Patch) : M (option Error) :=
  emit (Called (TableUpdate id p)) ;;
  match update_error env with
  | Some e => ret (Some e)
  | None =>
      fun w =>
        ({| table := alter (write_row (commit_time env) p) id (table w);
            bucket := bucket w;
            log := log w |}, Val None)
  end.

(** [select('title, description, category_id').eq('id', id).single()]. *)
Definition table_select_single (id : Z) : M (option ComplaintData * option Error) :=
  emit (Called (TableSelect id)) ;;
  match select_error env with
  | Some e => ret (None, Some e)
  | None =>
      fun w =>
        match table w !! id with
        | Some c =>
            (w, Val (Some {| data_title := Columns.title c;
                             data_description := Columns.description c;
                             data_category_id := Columns.category_id c |}, None))
        | None => (w, Val (None, Some no_rows_message))
        end
  end.

(** [supabase.storage.from('complaints').upload(key, body, options)],
    without upsert: an existing key is refused. *)
Definition storage_upload (key : string) (obj : StoredObject) : M (option Error) :=
  emit (Called (StorageUpload key)) ;;
  match upload_error env with
  | Some e => ret (Some e)
  | None =>
      fun w =>
        match bucket w !! key with
        | Some _ => (w, Val (Some already_exists_message))
        | None =>
            ({| table := table w;
                bucket := <[key := obj]> (bucket w);
                log := log w |}, Val None)
        end
  end.

(** [new Date()] moved two seconds ahead by [setSeconds]. *)
Definition futureDate : Z := new_date env + 2 * 1000.

Definition handleAcceptStatus (complaintId : Z) (status : Status) : World -> World :=
  try_catch
    (let! error := table_update complaintId (accept_patch futureDate) in
     match error with Some e => throw e | None => ret tt end ;;
     alert "OK" accept_ok_message ;;
     fetchUserComplaints)
    (fun error => alert "Error" (message_or error "Failed to update status")).

(** The address looked up for a coordinate; a failure of the geocoder is
    caught on the spot and leaves the placeholder. *)
Definition resolve_address (at_coords : Coords) : M string :=
  fun w =>
    match await (ReverseGeocode at_coords) (reverse_geocode env at_coords) w with
    | (w', Val (loc :: _)) =>
        (w', Val (join_parts [street loc; city loc; region loc; country loc]))
    | (w', Val []) => (w', Val placeholder_address)
    | (w', _) => (w', Val placeholder_address)
    end.

(** First part of [handleImageSelection]: the permission for the chosen
    source, then the picker. *)
Definition launch_picker (source : Source) : M PickerResult :=
  match source with
  | camera =>
      let! granted := await RequestCameraPermissions (camera_granted env) in
      if negb granted
      then alert "Permission Required" "Camera permission is needed." ;; jsreturn
      else await LaunchCamera (launched env camera)
  | gallery =>
      let! granted := await RequestMediaLibraryPermissions (media_granted env) in
      if negb granted
      then alert "Permission Required" "Gallery permission is needed." ;; jsreturn
      else await LaunchImageLibrary (launched env gallery)
  end.

(** Second part: the coordinates of the EXIF record when it yields some,
    the position of the device otherwise, and null when the permission
    for it is not granted. *)
Definition resolve_coordinates (exif : option Exif) : M (option Coords) :=
  let from_exif :=
    match exif with
    | Some e => getCoordsFromExif e
    | None => None
    end in
  match from_exif with
  | Some c => ret (Some c)
  | None =>
      let! status := await RequestForegroundPermissions (foreground_status env) in
      if String.eqb status "granted"
      then let! position := await GetCurrentPosition (current_position env) in
           ret (Some position)
      else ret None
  end.

(** Last part: the upload of the image and the update of the row. *)
Definition store_evidence (complaintId : Z) (imageUri : string) (c : Coords)
    (address : string) : M unit :=
  let! arrayBuffer := await (Fetch imageUri) (fetched env imageUri) in
  let fileExt := file_extension imageUri in
  let fileName := pretty (date_now env) ++ "." ++ fileExt in
  let! uploadError :=
    storage_upload fileName
      {| content := arrayBuffer; contentType := "image/" ++ fileExt |} in
  match uploadError with Some e => throw e | None => ret tt end ;;
  let publicUrl := public_url env fileName in
  let! updateError :=
    table_update complaintId
      (reject_patch publicUrl (latitude c) (longitude c) address futureDate) in
  match updateError with Some e => throw e | None => ret tt end ;;
  alert "Success" success_message ;;
  fetchUserComplaints.

(** The body of the [try] block of [handleImageSelection]. *)
Definition handleImageSelection_try (complaintId : Z)
    (complaintData : option ComplaintData) (source : Source) : M unit :=
  let! result := launch_picker source in
  match picked result with
  | None => jsreturn
  | Some asset =>
      let! coords := resolve_coordinates (exif asset) in
      match coords with
      | None =>
          alert "Error" gps_message ;;
          jsreturn
      | Some c =>
          let! address := resolve_address c in
          store_evidence complaintId (uri asset) c address
      end
  end.

Definition handleImageSelection (complaintId : Z)
    (complaintData : option ComplaintData) (source : Source) : World -> World :=
  try_catch (handleImageSelection_try complaintId complaintData source)
    (fun error => alert "Error" (message_or error "Failed to update image")).

(** The body of the [try] block of [handleRejectStatus], up to the dialog
    that offers the two sources. *)
Definition handleRejectStatus_try (complaintId : Z) : M (option ComplaintData) :=
  let! '(complaintData, fetchError) := table_select_single complaintId in
  match fetchError with Some e => throw e | None => ret tt end ;;
  alert "Select Image Source" "Choose how you want to add a new image" ;;
  ret complaintData.

(** [handleRejectStatus] together with the button the user then presses in
    the dialog. *)
Definition handleRejectStatus (complaintId : Z) : World -> World :=
  fun w =>
    match handleRejectStatus_try complaintId w with
    | (w', Val complaintData) =>
        match pressed env with
        | CameraButton => handleImageSelection complaintId complaintData camera w'
        | GalleryButton => handleImageSelection complaintId complaintData gallery w'
        | CancelButton => w'
        end
    | (w', Throw error) =>
        fst (alert "Error" (message_or error "Failed to process rejection") w')
    | (w', Return) => w'
    end.

End Workflow.

(** ** The home screen: labels, the list and its counts *)

Module Home.

(** [c.toUpperCase()] for one character; only the letters a to z change, as
    for every character of an ASCII text. *)
Definition toUpperCase (c : ascii) : ascii :=
  let n := nat_of_ascii c in
  if ((97 <=? n) && (n <=? 122))%nat then ascii_of_nat (n - 32) else c.

(** [w.length ? w.charAt(0).toUpperCase() + w.slice(1) : w]. *)
Definition capitalize (w : string) : string :=
  match w with
  | EmptyString => w
  | String c rest => String (toUpperCase c) rest
  end.

(** [parts.join(sep)] for a one-character separator. *)
Fixpoint join (sep : ascii) (parts : list string) : string :=
  match parts with
  | [] => ""
  | [p] => p
  | p :: rest => p ++ String sep (join sep rest)
  end.

Definition makeTitleCase (s : string) : string :=
  join " " (map capitalize (split " " s)).

(** A row of the view [complaints_with_verification_count], with the
    columns the screen filters, orders and shows. *)
Record ViewRow : Type := {
  id : Z;
  title : string;
  description : string;
  status : string;
  state_id : string;
  city_id : string;
  created_at : Z
}.

(** A chain of [eq] filters on the view. *)
Record Query : Type := {
  on_status : option string;
  on_state : option string;
  on_city : option string
}.

Definition passes (wanted : option string) (value : string) : bool :=
  match wanted with
  | Some x => String.eqb value x
  | None => true
  end.

Definition matches (q : Query) (r : ViewRow) : bool :=
  passes (on_status q) (status r) && passes (on_state q) (state_id r)
  && passes (on_city q) (city_id r).

(** [sel !== all ? query.eq(column, sel) : query]. *)
Definition unless (all sel : string) : option string :=
  if String.eqb sel all then None else Some sel.

(** [order('created_at', { ascending: false })]; rows of one date come in
    an order of the store's choosing, here the one the sort leaves. *)
Definition newest_first (a b : ViewRow) : Prop := created_at b <= created_at a.

#[global] Instance newest_first_dec (a b : ViewRow) : Decision (newest_first a b) :=
  decide (created_at b <= created_at a).

Definition ordered (rows : list ViewRow) : list ViewRow :=
  merge_sort newest_first rows.

(** What the store answers to the four queries of one fetch: a count query
    that fails has a null count, a failed list query an error. *)
Record Answers : Type := {
  total_fails : bool;
  open_fails : bool;
  resolved_fails : bool;
  list_error : option Error
}.

(** [select('*', { count: 'exact', head: true })] and [count ?? 0]. *)
Definition count_or_0 (fails : bool) (q : Query) (view : list ViewRow) : Z :=
  if fails then 0 else Z.of_nat (length (List.filter (matches q) view)).

Record Screen : Type := {
  complaints : list ViewRow;
  loading : bool;
  refreshing : bool;
  openCount : Z;
  totalCount : Z;
  resolvedCount : Z;
  selectedState : string;
  selectedCity : string;
  selectedStatus : string
}.

Definition fetchComplaintsAndCounts (view : list ViewRow) (ans : Answers)
    (s : Screen) : Screen :=
  let state := unless "All" (selectedState s) in
  let city := unless "All" (selectedCity s) in
  let totalQuery := {| on_status := None; on_state := state; on_city := city |} in
  let openQuery := {| on_status := Some "open"; on_state := state; on_city := city |} in
  let resolvedQuery :=
    {| on_status := Some "resolved"; on_state := state; on_city := city |} in
  let total := count_or_0 (total_fails ans) totalQuery view in
  let open := count_or_0 (open_fails ans) openQuery view in
  let resolved := count_or_0 (resolved_fails ans) resolvedQuery view in
  let query :=
    {| on_status := unless "all" (selectedStatus s); on_state := state;
       on_city := city |} in
  {| complaints :=
       match list_error ans with
       | Some _ => complaints s
       | None => ordered (List.filter (matches query) view)
       end;
     loading := false;
     refreshing := false;
     openCount := open;
     totalCount := total;
     resolvedCount := resolved;
     selectedState := selectedState s;
     selectedCity := selectedCity s;
     selectedStatus := selectedStatus s |}.

(** [onRefresh]: the pull-to-refresh flag is raised and the fetch runs. *)
Definition onRefresh (view : list ViewRow) (ans : Answers) (s : Screen) : Screen :=
  fetchComplaintsAndCounts view ans
    {| complaints := complaints s;
       loading := loading s;
       refreshing := true;
       openCount := openCount s;
       totalCount := totalCount s;
       resolvedCount := resolvedCount s;
       selectedState := selectedState s;
       selectedCity := selectedCity s;
       selectedStatus := selectedStatus s |}.

End Home.

(** ** The list of the profile screen *)

Module Profile.

(** The date a row is ordered by; a row without one has none. *)
Definition stamp (t : Timestamp) : option Z :=
  match t with
  | ts_at ms => Some ms
  | ts_absent | ts_invalid => None
  end.

(** [order('created_at', { ascending: false })] on the table: nulls come
    first in a descending order, rows of one date in an order of the
    store's choosing. *)
Definition newest_first (a b : Z * Complaint) : Prop :=
  match stamp (Columns.created_at a.2), stamp (Columns.created_at b.2) with
  | None, _ => True
  | Some _, None => False
  | Some x, Some y => y <= x
  end.

#[global] Instance newest_first_dec (a b : Z * Complaint) : Decision (newest_first a b).
Proof.
  unfold newest_first.
  destruct (stamp (Columns.created_at a.2)), (stamp (Columns.created_at b.2)); apply _.
Defined.

Record Screen : Type := {
  email : string;
  showComplaints : bool;
  userComplaints : list (Z * Complaint);
  loadingComplaints : bool
}.

(** The rows a query for one author answers; of each row the select keeps
    the columns the list shows. *)
Definition rows_of (author : string) (rows : gmap Z Complaint) : list (Z * Complaint) :=
  merge_sort newest_first
    (List.filter (fun r => String.eqb (Columns.created_by r.2) author) (map_to_list rows)).

Definition fetchUserComplaints (rows : gmap Z Complaint) (error : option Error)
    (s : Screen) : Screen :=
  if String.eqb (email s) "" then s
  else
    {| email := email s;
       showComplaints := showComplaints s;
       userComplaints :=
         match error with
         | Some _ => []
         | None => rows_of (email s) rows
         end;
       loadingComplaints := false |}.

(** The handler of the change feed. *)
Definition on_change (rows : gmap Z Complaint) (error : option Error)
    (s : Screen) : Screen :=
  if showComplaints s then fetchUserComplaints rows error s else s.

End Profile.

(** ** The submission of a new complaint *)

Module Submit.

(** The form of the screen: the two texts, the picked image and the
    position read when the screen opened. *)
Record Form : Type := {
  title : string;
  description : string;
  imageUri : option string;
  location : option Coords
}.

(** The object handed to [insert]. *)
Record NewComplaint : Type := {
  new_title : string;
  new_description : string;
  image_url : option string;
  new_location : string;
  user_id : string
}.

(** What the collaborators answer during one submission. *)
Record Answers : Type := {
  session_user : Outcome (option string);
  fetched_blob : string -> Outcome (Blob * string);
  iso_now : string;
  upload_refused : option Error;
  public_url_of : string -> option string;
  insert_refused : option Error;
  show_number : number -> string
}.

Record World : Type := {
  objects : gmap string StoredObject;
  inserted : list NewComplaint;
  shown : list (string * string);
  uploading : bool;
  went_back : bool
}.

Definition nonempty (s : string) : bool := negb (String.eqb s "").

(** The image and the position of a form that passes the check of
    [handleSubmit]: [!title || !description || !imageUri || !location]. *)
Definition complete (f : Form) : option (string * Coords) :=
  match imageUri f, location f with
  | Some uri, Some pos =>
      if nonempty (title f) && nonempty (description f) && nonempty uri
      then Some (uri, pos) else None
  | _, _ => None
  end.

Definition with_objects (o : gmap string StoredObject) (w : World) : World :=
  {| objects := o; inserted := inserted w; shown := shown w;
     uploading := uploading w; went_back := went_back w |}.

Definition with_inserted (l : list NewComplaint) (w : World) : World :=
  {| objects := objects w; inserted := l; shown := shown w;
     uploading := uploading w; went_back := went_back w |}.

Definition alert (heading message : string) (w : World) : World :=
  {| objects := objects w; inserted := inserted w;
     shown := shown w ++ [(heading, message)];
     uploading := uploading w; went_back := went_back w |}.

Definition setUploading (b : bool) (w : World) : World :=
  {| objects := objects w; inserted := inserted w; shown := shown w;
     uploading := b; went_back := went_back w |}.

Definition back (w : World) : World :=
  {| objects := objects w; inserted := inserted w; shown := shown w;
     uploading := uploading w; went_back := true |}.

(** The body of the [try] block of [handleSubmit]: the world it leaves and
    the exception it ends with, if any. *)
Definition handleSubmit_try (ans : Answers) (f : Form) (uri : string) (pos : Coords)
    (w : World) : World * option Error :=
  match session_user ans with
  | Rejected e => (w, Some e)
  | Resolved None => (w, Some "User not authenticated")
  | Resolved (Some userId) =>
      match fetched_blob ans uri with
      | Rejected e => (w, Some e)
      | Resolved (body, blob_type) =>
          let filePath := userId ++ "/" ++ iso_now ans ++ ".jpg" in
          let contentType :=
            if String.eqb blob_type "" then "image/jpeg" else blob_type in
          match upload_refused ans with
          | Some e => (w, Some e)
          | None =>
              match objects w !! filePath with
              | Some _ => (w, Some already_exists_message)
              | None =>
                  let w1 :=
                    with_objects
                      (<[filePath := {| content := body; contentType := contentType |}]>
                         (objects w)) w in
                  let complaintData :=
                    {| new_title := title f;
                       new_description := description f;
                       image_url := public_url_of ans filePath;
                       new_location :=
                         "POINT(" ++ show_number ans (longitude pos) ++ " "
                         ++ show_number ans (latitude pos) ++ ")";
                       user_id := userId |} in
                  match insert_refused ans with
                  | Some e => (w1, Some e)
                  | None =>
                      (back (alert "Success"
                               "Your complaint has been submitted successfully!"
                               (with_inserted (inserted w1 ++ [complaintData]) w1)),
                       None)
                  end
              end
          end
      end
  end.

Definition handleSubmit (ans : Answers) (f : Form) (w : World) : World :=
  match complete f with
  | None => alert "Missing Information" "Please fill all fields and select an image." w
  | Some (uri, pos) =>
      let '(w', thrown) := handleSubmit_try ans f uri pos (setUploading true w) in
      setUploading false
        match thrown with
        | Some e => alert "Error" (message_or e "Failed to submit complaint.") w'
        | None => w'
        end
  end.

End Submit.

(** * Vocabulary of the statements *)

(** A component of an angular triple, as the EXIF input contract has it,
    and the rational it denotes: a plain finite number, or a text made of
    a numerator, a slash and a non-zero denominator. *)
Inductive reads_as : value -> Q -> Prop :=
| reads_number (q : Q) : reads_as (JNumber (Fin q)) q
| reads_rational (n d : string) (a b : Q) :
    includes "/"%char n = false ->
    includes "/"%char d = false ->
    StringToNumber n = Fin a ->
    StringToNumber d = Fin b ->
    ~ b == 0 ->
    reads_as (JString (n ++ "/" ++ d)) (a / b).

(** The decimal degrees of a triple of rationals. *)
Definition dms_value (qd qm qs : Q) : Q := qd + qm / 60 + qs / 3600.

(** One day, in milliseconds. *)
Definition day : Z := 1000 * 60 * 60 * 24.

(** Unfolds the monad down to functions on worlds. *)
Ltac run :=
  unfold fetchUserComplaints, try_catch, bind, await, alert, emit, ret, throw,
    jsreturn; cbn.


(** The world after some more events, with the stores as they were. *)
Definition logged (evs : list Event) (w : World) : World :=
  {| table := table w; bucket := bucket w; log := log w ++ evs |}.

(** The row updates among some events. *)
Definition updates (evs : list Event) : list (Z * Patch) :=
  omap (fun ev => match ev with
                  | Called (TableUpdate id p) => Some (id, p)
                  | _ => None
                  end) evs.

(** The uploads among some events. *)
Definition uploads (evs : list Event) : list string :=
  omap (fun ev => match ev with
                  | Called (StorageUpload key) => Some key
                  | _ => None
                  end) evs.

(** A step that only talks: it leaves the stores alone and asks for no
    write. *)
Definition quiet {A} (m : M A) : Prop :=
  forall w, exists evs,
    fst (m w) = logged evs w /\ updates evs = [] /\ uploads evs = [].

(** Closes a [quiet] goal on one path with the events of that path. *)
Ltac quiet_by evs :=
  exists evs; unfold logged; cbn; rewrite <- ?app_assoc; done.

(** The address kept for a coordinate. *)
Definition address_for (env : Env) (c : Coords) : string :=
  match reverse_geocode env c with
  | Resolved (loc :: _) => join_parts [street loc; city loc; region loc; country loc]
  | _ => placeholder_address
  end.

(** The key and the object of the upload for an image. *)
Definition upload_key (env : Env) (imageUri : string) : string :=
  pretty (date_now env) ++ "." ++ file_extension imageUri.

Definition uploaded (imageUri : string) (body : Blob) : StoredObject :=
  {| content := body; contentType := "image/" ++ file_extension imageUri |}.

(** The source a button of the dialog stands for. *)
Definition source_of (b : Button) : option Source :=
  match b with
  | CameraButton => Some camera
  | GalleryButton => Some gallery
  | CancelButton => None
  end.

(** Reject ran through its last step. *)
Definition completes (env : Env) (id : Z) (w : World) : Prop :=
  exists w1 cd source w',
    handleRejectStatus_try env id w = (w1, Val cd) /\
    source_of (pressed env) = Some source /\
    handleImageSelection_try env id cd source w1 = (w', Val tt) /\
    handleRejectStatus env id w = w'.

(** [c] occurs in a list of characters. *)
Definition has (c : ascii) (l : list ascii) : bool := existsb (ascii_eqb c) l.

(** An array of at least three elements. *)
Definition is_triple (v : value) : bool :=
  match v with
  | JArray (_ :: _ :: _ :: _) => true
  | _ => false
  end.

(** One of the two infinities. *)
Definition infinite (n : number) : bool :=
  match n with PInf | NInf => true | _ => false end.

(** The values [parseRational] reads as NaN: the number NaN and a text
    whose first two parts around the slash are both infinite. *)
Definition never_a_number (v : value) : Prop :=
  v = JNumber NaN \/
  exists s n d more,
    v = JString s /\ includes "/" s = true /\
    map StringToNumber (split "/" s) = n :: d :: more /\
    infinite n = true /\ infinite d = true.

(** The answer to the permission request of a source. *)
Definition granted_for (env : Env) (source : Source) : Outcome bool :=
  match source with
  | camera => camera_granted env
  | gallery => media_granted env
  end.

(** The permission request of a source. *)
Definition permission_call (source : Source) : Call :=
  match source with
  | camera => RequestCameraPermissions
  | gallery => RequestMediaLibraryPermissions
  end.

(** The picker of a source. *)
Definition launch_call (source : Source) : Call :=
  match source with
  | camera => LaunchCamera
  | gallery => LaunchImageLibrary
  end.

(** The alert shown when the permission of a source is refused. *)
Definition permission_message (source : Source) : string :=
  match source with
  | camera => "Camera permission is needed."
  | gallery => "Gallery permission is needed."
  end.

(** The alerts among some events. *)
Definition alerts (evs : list Event) : list (string * string) :=
  omap (fun ev => match ev with
                  | Alerted h m => Some (h, m)
                  | _ => None
                  end) evs.

(** A call about the position of the device. *)
Definition is_positioning (ev : Event) : bool :=
  match ev with
  | Called RequestForegroundPermissions | Called GetCurrentPosition => true
  | _ => false
  end.

(** The calls about the position of the device among some events. *)
Definition positioning (evs : list Event) : list Event := List.filter is_positioning evs.

(** The picker was left without an image. *)
Definition dismissed (env : Env) (source : Source) (w : World) : Prop :=
  exists w1 result, launch_picker env source w = (w1, Val result) /\ picked result = None.

(** A part of an address that is null or empty. *)
Definition blank (p : option string) : Prop := p = None \/ p = Some "".

(** A row is wanted by the three pills of the screen. *)
Definition wanted (s : Home.Screen) (r : Home.ViewRow) : Prop :=
  (Home.selectedStatus s = "all" \/ Home.status r = Home.selectedStatus s) /\
  (Home.selectedState s = "All" \/ Home.state_id r = Home.selectedState s) /\
  (Home.selectedCity s = "All" \/ Home.city_id r = Home.selectedCity s).

(** A row is in the selected state and city. *)
Definition in_place (s : Home.Screen) (r : Home.ViewRow) : bool :=
  Home.passes (Home.unless "All" (Home.selectedState s)) (Home.state_id r)
  && Home.passes (Home.unless "All" (Home.selectedCity s)) (Home.city_id r).

(** The statuses of the table, as the constant STATUSES of the home screen
    lists them after all. *)
Definition table_statuses : list string := ["pending"; "resolved"; "verified"].

(** [Home.join] on lists of characters. *)
Fixpoint join_chars (sep : ascii) (parts : list (list ascii)) : list ascii :=
  match parts with
  | [] => []
  | [p] => p
  | p :: rest => p ++ sep :: join_chars sep rest
  end.

(** A text of ASCII characters. *)
Definition ascii_text (s : string) : Prop :=
  forallb (fun c => (nat_of_ascii c <? 128)%nat) (chars s) = true.

(** ** A concrete scene, for the examples *)

Module Scene.

Definition row : Complaint :=
  {| Columns.title := "Broken street light";
     Columns.description := "The lamp at the corner has been dark for a week";
     Columns.category_id := 3;
     Columns.status := pending;
     Columns.created_at := ts_at 1700000000000;
     Columns.updated_at := ts_at 1700000600000;
     Columns.submitted_date := ts_at 1700000000000;
     Columns.location := "12 Canal Road, Pune, Maharashtra, India";
     Columns.latitude := Some (37 # 2);
     Columns.longitude := Some (739 # 10);
     Columns.photo_url := "https://example.org/storage/old.jpg";
     Columns.created_by := "citizen@example.org" |}.

(** A row that was never stamped with a submission date. *)
Definition unstamped : Complaint :=
  {| Columns.title := "Fallen tree";
     Columns.description := "";
     Columns.category_id := 1;
     Columns.status := pending;
     Columns.created_at := ts_at 1700000000000;
     Columns.updated_at := ts_at 1700000600000;
     Columns.submitted_date := ts_absent;
     Columns.location := "";
     Columns.latitude := None;
     Columns.longitude := None;
     Columns.photo_url := "";
     Columns.created_by := "citizen@example.org" |}.

Definition world : World :=
  {| table := {[ 7 := row ]}; bucket := ∅; log := [] |}.

Definition exif_40N_74W : Exif :=
  {| GPSLatitude := JArray [num 40; num 0; num 0];
     GPSLatitudeRef := JString "N";
     GPSLongitude := JArray [num 74; num 0; num 0];
     GPSLongitudeRef := JString "W" |}.

(** A latitude whose degrees are not a number. *)
Definition exif_garbled : Exif :=
  {| GPSLatitude := JArray [JString "abc"; num 30; num 0];
     GPSLatitudeRef := JString "N";
     GPSLongitude := JArray [num 74; num 0; num 0];
     GPSLongitudeRef := JString "W" |}.

Definition photo (e : option Exif) : PickerResult :=
  {| canceled := false;
     assets := [ {| uri := "file:///cache/photo.jpg"; exif := e |} ] |}.

Definition here : Coords := {| latitude := Fin (37 # 2); longitude := Fin (739 # 10) |}.

Definition home : Address :=
  {| street := Some "12 Canal Road"; city := Some "Pune";
     region := Some "Maharashtra"; country := Some "India" |}.

(** Every collaborator answers; the picked photo carries [e]. *)
Definition env (e : option Exif) : Env :=
  {| camera_granted := Resolved true;
     media_granted := Resolved true;
     launched := fun _ => Resolved (photo e);
     foreground_status := Resolved "granted";
     current_position := Resolved here;
     reverse_geocode := fun _ => Resolved [home];
     fetched := fun _ => Resolved [];
     upload_error := None;
     public_url := fun key => "https://example.org/storage/" ++ key;
     select_error := None;
     update_error := None;
     pressed := CameraButton;
     date_now := 1700000700000;
     new_date := 1700000700250;
     commit_time := 1700000700400 |}.


(** The same as [env], with a geocoder that throws. *)
Definition env_no_geocoder (e : option Exif) : Env :=
  {| camera_granted := Resolved true;
     media_granted := Resolved true;
     launched := fun _ => Resolved (photo e);
     foreground_status := Resolved "granted";
     current_position := Resolved here;
     reverse_geocode := fun _ => Rejected "Geocoder unavailable";
     fetched := fun _ => Resolved [];
     upload_error := None;
     public_url := fun key => "https://example.org/storage/" ++ key;
     select_error := None;
     update_error := None;
     pressed := CameraButton;
     date_now := 1700000700000;
     new_date := 1700000700250;
     commit_time := 1700000700400 |}.

End Scene.

(** ** More samples *)

Module Sample.

(** EXIF whose coordinates are decimal numbers, not triples. *)
Definition exif_decimal : Exif :=
  {| GPSLatitude := JNumber (Fin (81 # 2));
     GPSLatitudeRef := JString "N";
     GPSLongitude := JNumber (Fin (-74));
     GPSLongitudeRef := JString "W" |}.

(** A row whose submission date cannot be read. *)
Definition garbled_row : Complaint :=
  {| Columns.title := "Open manhole";
     Columns.description := "";
     Columns.category_id := 2;
     Columns.status := verified;
     Columns.created_at := ts_at 1700000000000;
     Columns.updated_at := ts_at 1700000600000;
     Columns.submitted_date := ts_invalid;
     Columns.location := "";
     Columns.latitude := None;
     Columns.longitude := None;
     Columns.photo_url := "";
     Columns.created_by := "citizen@example.org" |}.

(** The camera is refused. *)
Definition env_no_camera : Env :=
  {| camera_granted := Resolved false;
     media_granted := Resolved true;
     launched := fun _ => Resolved (Scene.photo None);
     foreground_status := Resolved "granted";
     current_position := Resolved Scene.here;
     reverse_geocode := fun _ => Resolved [Scene.home];
     fetched := fun _ => Resolved [];
     upload_error := None;
     public_url := fun key => "https://example.org/storage/" ++ key;
     select_error := None;
     update_error := None;
     pressed := CameraButton;
     date_now := 1700000700000;
     new_date := 1700000700250;
     commit_time := 1700000700400 |}.

(** The geocoder knows the place by no name. *)
Definition nowhere : Address :=
  {| street := None; city := Some ""; region := None; country := None |}.

Definition env_nowhere : Env :=
  {| camera_granted := Resolved true;
     media_granted := Resolved true;
     launched := fun _ => Resolved (Scene.photo None);
     foreground_status := Resolved "granted";
     current_position := Resolved Scene.here;
     reverse_geocode := fun _ => Resolved [nowhere];
     fetched := fun _ => Resolved [];
     upload_error := None;
     public_url := fun key => "https://example.org/storage/" ++ key;
     select_error := None;
     update_error := None;
     pressed := CameraButton;
     date_now := 1700000700000;
     new_date := 1700000700250;
     commit_time := 1700000700400 |}.

Definition old_photo : StoredObject := {| content := []; contentType := "image/jpg" |}.

(** The world of [Scene.world] with the first photo in the bucket. *)
Definition world_with_photo : World :=
  {| table := {[ 7 := Scene.row ]}; bucket := {[ "old.jpg" := old_photo ]}; log := [] |}.

Definition view : list Home.ViewRow :=
  [ {| Home.id := 1; Home.title := "Pothole"; Home.description := "";
       Home.status := "pending"; Home.state_id := "PB"; Home.city_id := "LDH";
       Home.created_at := 1700000000000 |};
    {| Home.id := 2; Home.title := "Street light"; Home.description := "";
       Home.status := "resolved"; Home.state_id := "PB"; Home.city_id := "ASR";
       Home.created_at := 1700000500000 |};
    {| Home.id := 3; Home.title := "Garbage"; Home.description := "";
       Home.status := "verified"; Home.state_id := "HR"; Home.city_id := "GGN";
       Home.created_at := 1700000300000 |} ].

Definition answers : Home.Answers :=
  {| Home.total_fails := false; Home.open_fails := false;
     Home.resolved_fails := false; Home.list_error := None |}.

Definition home : Home.Screen :=
  {| Home.complaints := []; Home.loading := true; Home.refreshing := false;
     Home.openCount := 0; Home.totalCount := 0; Home.resolvedCount := 0;
     Home.selectedState := "PB"; Home.selectedCity := "All";
     Home.selectedStatus := "all" |}.

Definition profile : Profile.Screen :=
  {| Profile.email := "citizen@example.org"; Profile.showComplaints := true;
     Profile.userComplaints := []; Profile.loadingComplaints := false |}.

End Sample.

(** * Properties *)

(** ** Numbers and strings *)

Example StringToNumber_samples :
  StringToNumber "40" = Fin 40 /\
  StringToNumber " 26.5 " = Fin (53 # 2) /\
  StringToNumber "-1.5e1" = Fin (-15) /\
  StringToNumber ".5" = Fin (1 # 2) /\
  StringToNumber "5." = Fin 5 /\
  StringToNumber "0x1F" = Fin 31 /\
  StringToNumber "" = Fin 0 /\
  StringToNumber "Infinity" = PInf /\
  StringToNumber "abc" = NaN /\
  StringToNumber "." = NaN /\
  StringToNumber "1e" = NaN /\
  StringToNumber "12px" = NaN /\
  StringToNumber "1/2" = NaN.
Proof. repeat split; vm_compute; reflexivity. Qed.

Example dmsToDecimal_samples :
  dmsToDecimal (JArray [num 10; num 30; num 0]) (JString "S") = Some (Fin (-21 # 2)) /\
  dmsToDecimal (JArray [num 40; num 0; num 0]) (JString "N") = Some (Fin 40) /\
  dmsToDecimal (JArray [JString "40/1"; JString "26/1"; JString "4614/100"]) JUndefined
    = Some (Fin (808923 # 20000)) /\
  dmsToDecimal (JArray [num 40; num 0]) (JString "N") = None /\
  dmsToDecimal (num 40) (JString "N") = None /\
  dmsToDecimal (JArray [JNumber NaN; num 0; num 0]) (JString "N") = None /\
  dmsToDecimal (JArray [JString "abc"; num 30; num 0]) (JString "N") = Some (Fin (1 # 2)).
Proof. repeat split; vm_compute; reflexivity. Qed.

Lemma or_else_not_NaN (a : number) : isNaN (or_else a (Fin 0)) = false.
Proof. unfold or_else. destruct a; cbn; try done. by destruct (negb _). Qed.

Lemma chars_app (a b : string) : chars (a ++ b) = (chars a ++ chars b)%list.
Proof.
  unfold chars. induction a as [|c a IH]; [done|].
  simpl. by rewrite IH.
Qed.

Lemma unchars_chars (s : string) : unchars (chars s) = s.
Proof. apply string_of_list_ascii_of_string. Qed.

Lemma split_chars_none c (l : list ascii) :
  existsb (ascii_eqb c) l = false -> split_chars c l = [l].
Proof.
  induction l as [|x l IH]; [done|]. cbn.
  intros [Hx Hl]%orb_false_elim.
  unfold ascii_eqb in *. rewrite Ascii.eqb_sym in Hx. rewrite Hx.
  by rewrite (IH Hl).
Qed.

Lemma split_chars_first c (l r : list ascii) :
  existsb (ascii_eqb c) l = false ->
  split_chars c (l ++ c :: r) = l :: split_chars c r.
Proof.
  induction l as [|x l IH]; cbn.
  - intros _. unfold ascii_eqb. by rewrite Ascii.eqb_refl.
  - intros [Hx Hl]%orb_false_elim.
    unfold ascii_eqb in *. rewrite Ascii.eqb_sym in Hx. rewrite Hx.
    by rewrite (IH Hl).
Qed.

Lemma split_two c (a b : string) :
  includes c a = false -> includes c b = false ->
  split c (a ++ String c b) = [a; b].
Proof.
  unfold includes, split. intros Ha Hb.
  rewrite chars_app. change (chars (String c b)) with (c :: chars b).
  rewrite (split_chars_first _ _ _ Ha), (split_chars_none _ _ Hb).
  cbn. by rewrite !unchars_chars.
Qed.

Lemma includes_middle c (a b : string) : includes c (a ++ String c b) = true.
Proof.
  unfold includes. rewrite chars_app, existsb_app.
  change (chars (String c b)) with (c :: chars b). cbn.
  unfold ascii_eqb. rewrite Ascii.eqb_refl. by rewrite orb_true_r.
Qed.

Lemma parseRational_reads (v : value) (q : Q) :
  reads_as v q -> exists q', parseRational v = Fin q' /\ q' == q.
Proof.
  destruct 1 as [q|n d a b Hn Hd Ha Hb Hnz].
  - exists q. split; [done | reflexivity].
  - exists (Qred (a / b)). split; [| apply Qred_correct].
    unfold parseRational.
    change (n ++ "/" ++ d) with (n ++ String "/"%char d).
    rewrite includes_middle, (split_two _ _ _ Hn Hd). cbn [map].
    rewrite Ha, Hb. cbn.
    destruct (Qeq_bool b 0) eqn:E; [| done].
    by apply Qeq_bool_iff in E.
Qed.

(** The only values [parseRational] turns into NaN: the number NaN itself
    and texts with a slash (whose quotient is NaN). *)
Lemma parseRational_NaN (v : value) :
  isNaN (parseRational v) = true ->
  v = JNumber NaN \/ exists s, v = JString s /\ includes "/"%char s = true.
Proof.
  destruct v as [| |b|n|s|l|]; cbn [parseRational];
    rewrite ?or_else_not_NaN; try done.
  - destruct n; try done. by left.
  - destruct (includes "/"%char s) eqn:E; [right; by exists s|].
    by rewrite or_else_not_NaN.
Qed.

Lemma south_or_west_iff (ref : value) :
  south_or_west ref = true <-> ref = JString "S" \/ ref = JString "W".
Proof.
  split.
  - unfold south_or_west. destruct ref as [| |b|n|r|l|]; cbn;
      rewrite ?andb_false_r; try done.
    intros [_ [H|H]%orb_true_iff]%andb_true_iff;
      apply String.eqb_eq in H; subst; auto.
  - by intros [-> | ->].
Qed.

Lemma dmsToDecimal_reads (d m s ref : value) (qd qm qs : Q) :
  reads_as d qd -> reads_as m qm -> reads_as s qs ->
  exists r, dmsToDecimal (JArray [d; m; s]) ref = Some (Fin r) /\
            r == (if south_or_west ref then - dms_value qd qm qs
                  else dms_value qd qm qs).
Proof.
  intros (d' & Hd & Ed)%parseRational_reads (m' & Hm & Em)%parseRational_reads
         (s' & Hs & Es)%parseRational_reads.
  unfold dmsToDecimal. rewrite Hd, Hm, Hs. cbn.
  destruct (south_or_west ref); cbn; eexists; (split; [reflexivity|]);
    rewrite !Qred_correct, Ed, Em, Es; reflexivity.
Qed.

(** C7: on every valid triple [dmsToDecimal] returns degrees + minutes/60 +
    seconds/3600, negated exactly when the reference is "S" or "W"; the
    triple 10, 30, 0 with "S" gives -10.5 and 40, 0, 0 with "N" gives 40. *)
Theorem dmsToDecimal_formula (d m s ref : value) (qd qm qs : Q) :
  reads_as d qd -> reads_as m qm -> reads_as s qs ->
  (exists r, dmsToDecimal (JArray [d; m; s]) ref = Some (Fin r) /\
     r == (if south_or_west ref then - (qd + qm / 60 + qs / 3600)
           else qd + qm / 60 + qs / 3600)) /\
  (south_or_west ref = true <-> ref = JString "S" \/ ref = JString "W") /\
  dmsToDecimal (JArray [num 10; num 30; num 0]) (JString "S") = Some (Fin (-21 # 2)) /\
  dmsToDecimal (JArray [num 40; num 0; num 0]) (JString "N") = Some (Fin 40).
Proof.
  intros Hd Hm Hs. split; [| split; [| split]].
  - apply (dmsToDecimal_reads d m s ref qd qm qs Hd Hm Hs).
  - apply south_or_west_iff.
  - vm_compute. reflexivity.
  - vm_compute. reflexivity.
Qed.

Lemma dmsToDecimal_formula_witness :
  exists r, dmsToDecimal (JArray [JString "40/1"; num 26; JString "4614/100"])
              (JString "W") = Some (Fin r) /\
            r == - (40 / 1 + 26 / 60 + (4614 / 100) / 3600).
Proof.
  refine (proj1 (dmsToDecimal_formula
            (JString "40/1") (num 26) (JString "4614/100") (JString "W")
            (40 / 1) 26 (4614 / 100) _ _ _)).
  - apply (reads_rational "40" "1" 40 1); [reflexivity ..| discriminate].
  - apply reads_number.
  - apply (reads_rational "4614" "100" 4614 100); [reflexivity ..| discriminate].
Defined.

Section Signs.

Local Open Scope Q_scope.

Lemma dms_value_sign (qd qm qs r : Q) (negated : bool) :
  0 <= qd -> 0 <= qm -> 0 <= qs ->
  r == (if negated then - dms_value qd qm qs else dms_value qd qm qs) ->
  if negated
  then r <= 0 /\ (r < 0 <-> ~ (qd == 0 /\ qm == 0 /\ qs == 0))
  else 0 <= r.
Proof.
  unfold dms_value, Qdiv.
  change (/ 60) with (1 # 60). change (/ 3600) with (1 # 3600).
  intros Hd Hm Hs Hr. destruct negated; [| lra].
  split; [lra|]. split.
  - intros Hneg (Zd & Zm & Zs). lra.
  - intros Hnz. destruct (Qlt_le_dec r 0) as [|Hge]; [assumption|].
    exfalso. apply Hnz. repeat split; lra.
Qed.

(** C8, as the code has it: on a valid triple with no negative component the
    result is zero or negative under "S" or "W", negative exactly when some
    component is not zero, and it is zero or positive under "N", "E" or no
    reference. *)
Theorem dmsToDecimal_sign (d m s ref : value) (qd qm qs : Q) :
  reads_as d qd -> reads_as m qm -> reads_as s qs ->
  0 <= qd -> 0 <= qm -> 0 <= qs ->
  exists r, dmsToDecimal (JArray [d; m; s]) ref = Some (Fin r) /\
    (ref = JString "S" \/ ref = JString "W" ->
       r <= 0 /\ (r < 0 <-> ~ (qd == 0 /\ qm == 0 /\ qs == 0))) /\
    (ref = JString "N" \/ ref = JString "E" \/ ref = JUndefined -> 0 <= r).
Proof.
  intros Hd Hm Hs Pd Pm Ps.
  destruct (dmsToDecimal_reads d m s ref qd qm qs Hd Hm Hs) as (r & Hr & Er).
  exists r. split; [exact Hr|].
  pose proof (dms_value_sign qd qm qs r (south_or_west ref) Pd Pm Ps Er) as Hsign.
  split.
  - intros Href%south_or_west_iff. by rewrite Href in Hsign.
  - intros Href.
    assert (south_or_west ref = false) as E
      by (destruct Href as [-> | [-> | ->]]; reflexivity).
    by rewrite E in Hsign.
Qed.

Lemma dmsToDecimal_sign_witness :
  exists r, dmsToDecimal (JArray [num 10; JString "61/2"; num 0]) (JString "S")
              = Some (Fin r) /\
    (JString "S" = JString "S" \/ JString "S" = JString "W" ->
       r <= 0 /\ (r < 0 <-> ~ (10 == 0 /\ 61 / 2 == 0 /\ 0 == 0))) /\
    (JString "S" = JString "N" \/ JString "S" = JString "E" \/ JString "S" = JUndefined ->
       0 <= r).
Proof.
  refine (dmsToDecimal_sign (num 10) (JString "61/2") (num 0) (JString "S")
            10 (61 / 2) 0 _ _ _ _ _ _).
  - apply reads_number.
  - apply (reads_rational "61" "2" 61 2); [reflexivity ..| discriminate].
  - apply reads_number.
  - discriminate.
  - discriminate.
  - discriminate.
Defined.

(** The triple 0, 0, 0 is valid, and under "S" its decimal is zero: not a
    negative number. *)
Lemma zero_triple_south_not_negative :
  reads_as (num 0) 0 /\
  exists r, dmsToDecimal (JArray [num 0; num 0; num 0]) (JString "S") = Some (Fin r) /\
            ~ r < 0 /\ lt (Fin r) (Fin 0) = false.
Proof.
  split; [apply reads_number|].
  exists 0. split; [vm_compute; reflexivity|]. split; [discriminate | reflexivity].
Qed.

End Signs.

(** ** The confirmation predicate *)

Lemma gt_of_Z (a b : Z) : gt (of_Z a) (of_Z b) = (b <? a).
Proof.
  unfold gt, of_Z. destruct (b <? a) eqn:E.
  - apply negb_true_iff. apply not_true_iff_false.
    rewrite Qle_bool_iff, <- Zle_Qle. apply Z.ltb_lt in E. lia.
  - apply negb_false_iff. rewrite Qle_bool_iff, <- Zle_Qle.
    apply Z.ltb_ge in E. lia.
Qed.

Lemma days_since_le_7 (now u : Z) :
  le (div (sub (of_Z now) (of_Z u)) (of_Z (1000 * 60 * 60 * 24))) (Fin 7)
  = (now - u <=? 7 * day).
Proof.
  unfold sub, neg, add, div, le, of_Z, day.
  change (1000 * 60 * 60 * 24) with 86400000.
  change (Qeq_bool (inject_Z 86400000) 0) with false. cbv iota.
  assert (Qred (Qred (inject_Z now + Qred (- inject_Z u)) / inject_Z 86400000)
          == inject_Z (now - u) * (1 # 86400000))%Q as E.
  { rewrite !Qred_correct. unfold Z.sub.
    rewrite inject_Z_plus, inject_Z_opp. reflexivity. }
  destruct (now - u <=? 7 * 86400000) eqn:L.
  - apply Qle_bool_iff. rewrite E. clear E.
    apply Z.leb_le in L. unfold Qle, Qmult, inject_Z.
    cbn [Qnum Qden]. lia.
  - apply not_true_iff_false. rewrite Qle_bool_iff, E. clear E.
    apply Z.leb_gt in L. unfold Qle, Qmult, inject_Z.
    cbn [Qnum Qden]. lia.
Qed.

Lemma isRecentlyUpdated_at (now : Z) (c : Complaint) (u s : Z) :
  Columns.updated_at c = ts_at u -> Columns.submitted_date c = ts_at s ->
  isRecentlyUpdated now c = (s <? u) && (now - u <=? 7 * day).
Proof.
  intros Hu Hs. unfold isRecentlyUpdated. rewrite Hu, Hs. cbn [ts_truthy negb orb getTime].
  by rewrite gt_of_Z, days_since_le_7.
Qed.

(** C3: with both timestamps present the predicate is
    updatedAt > submittedDate and now - updatedAt <= 7 days; it holds one
    day after an update that follows the submission by a day, and fails
    eight days after the update, and when the submission follows the
    update. *)
Theorem isRecentlyUpdated_formula (now : Z) (c : Complaint) (u s : Z) :
  Columns.updated_at c = ts_at u -> Columns.submitted_date c = ts_at s ->
  isRecentlyUpdated now c = (s <? u) && (now - u <=? 7 * day) /\
  (u = now - day -> s = now - 2 * day -> isRecentlyUpdated now c = true) /\
  (u = now - 8 * day -> s = now - 9 * day -> isRecentlyUpdated now c = false) /\
  (u = now - 2 * day -> s = now - day -> isRecentlyUpdated now c = false).
Proof.
  intros Hu Hs. rewrite (isRecentlyUpdated_at now c u s Hu Hs).
  split; [reflexivity|]. unfold day.
  repeat split; intros -> ->.
  - apply andb_true_iff. split; [apply Z.ltb_lt | apply Z.leb_le]; lia.
  - apply andb_false_iff. right. apply Z.leb_gt. lia.
  - apply andb_false_iff. left. apply Z.ltb_ge. lia.
Qed.

Lemma isRecentlyUpdated_formula_witness :
  isRecentlyUpdated 1700001000000 Scene.row
  = (1700000000000 <? 1700000600000)
    && (1700001000000 - 1700000600000 <=? 7 * day).
Proof.
  exact (proj1 (isRecentlyUpdated_formula 1700001000000 Scene.row
                  1700000600000 1700000000000 eq_refl eq_refl)).
Defined.

(** C10: a record without [updated_at] or without [submitted_date] never
    needs a confirmation. *)
Theorem isRecentlyUpdated_missing (now : Z) (c : Complaint) :
  Columns.updated_at c = ts_absent \/ Columns.submitted_date c = ts_absent ->
  isRecentlyUpdated now c = false.
Proof.
  unfold isRecentlyUpdated. intros [-> | ->]; cbn [ts_truthy negb orb];
    [reflexivity | by rewrite orb_true_r].
Qed.

Lemma isRecentlyUpdated_missing_witness :
  (Columns.updated_at Scene.unstamped = ts_absent
   \/ Columns.submitted_date Scene.unstamped = ts_absent) /\
  isRecentlyUpdated 1700001000000 Scene.unstamped = false.
Proof.
  split; [right; reflexivity|].
  apply isRecentlyUpdated_missing. right. reflexivity.
Defined.

(** ** Accept *)

Lemma handleAcceptStatus_commit (env : Env) (id : Z) (st : Status) (w : World) :
  update_error env = None ->
  handleAcceptStatus env id st w =
  {| table := alter (write_row (commit_time env) (accept_patch (futureDate env))) id (table w);
     bucket := bucket w;
     log := log w ++ [Called (TableUpdate id (accept_patch (futureDate env)));
                      Alerted "OK" accept_ok_message; Refreshed] |}.
Proof.
  intros H. unfold handleAcceptStatus, table_update. rewrite H. run.
  by rewrite <- !app_assoc.
Qed.

Lemma handleAcceptStatus_error (env : Env) (id : Z) (st : Status) (w : World) (e : Error) :
  update_error env = Some e ->
  handleAcceptStatus env id st w =
  {| table := table w;
     bucket := bucket w;
     log := log w ++ [Called (TableUpdate id (accept_patch (futureDate env)));
                      Alerted "Error" (message_or e "Failed to update status")] |}.
Proof.
  intros H. unfold handleAcceptStatus, table_update. rewrite H. run.
  by rewrite <- !app_assoc.
Qed.




(** ** Reject *)

Lemma updates_app (a b : list Event) : updates (a ++ b) = (updates a ++ updates b)%list.
Proof. apply omap_app. Qed.

Lemma uploads_app (a b : list Event) : uploads (a ++ b) = (uploads a ++ uploads b)%list.
Proof. apply omap_app. Qed.

Lemma logged_nil (w : World) : logged [] w = w.
Proof. destruct w. unfold logged. cbn. by rewrite app_nil_r. Qed.

Lemma logged_logged (a b : list Event) (w : World) :
  logged b (logged a w) = logged (a ++ b) w.
Proof. unfold logged. cbn. by rewrite app_assoc. Qed.

Lemma launch_picker_quiet (env : Env) (source : Source) :
  quiet (launch_picker env source).
Proof.
  intros w. unfold launch_picker. destruct source; run.
  - destruct (camera_granted env) as [[|]|e]; cbn.
    + destruct (launched env camera); cbn;
        quiet_by [Called RequestCameraPermissions; Called LaunchCamera].
    + quiet_by [Called RequestCameraPermissions;
                Alerted "Permission Required" "Camera permission is needed."].
    + quiet_by [Called RequestCameraPermissions].
  - destruct (media_granted env) as [[|]|e]; cbn.
    + destruct (launched env gallery); cbn;
        quiet_by [Called RequestMediaLibraryPermissions; Called LaunchImageLibrary].
    + quiet_by [Called RequestMediaLibraryPermissions;
                Alerted "Permission Required" "Gallery permission is needed."].
    + quiet_by [Called RequestMediaLibraryPermissions].
Qed.

Lemma resolve_coordinates_quiet (env : Env) (exif : option Exif) :
  quiet (resolve_coordinates env exif).
Proof.
  intros w. unfold resolve_coordinates.
  destruct (match exif with Some e => getCoordsFromExif e | None => None end);
    run; [exists []; by rewrite logged_nil|].
  destruct (foreground_status env) as [status|e]; cbn;
    [| quiet_by [Called RequestForegroundPermissions]].
  destruct (String.eqb status "granted"); cbn;
    [| quiet_by [Called RequestForegroundPermissions]].
  destruct (current_position env); cbn;
    quiet_by [Called RequestForegroundPermissions; Called GetCurrentPosition].
Qed.

(** The geocoder is asked once, and whatever it answers the step ends with
    an address. *)
Lemma resolve_address_run (env : Env) (c : Coords) (w : World) :
  resolve_address env c w =
  (logged [Called (ReverseGeocode c)] w, Val (address_for env c)).
Proof.
  unfold resolve_address, address_for. run.
  destruct (reverse_geocode env c) as [[|loc rest]|e]; reflexivity.
Qed.

(** The last part of Reject, case by case. *)
Lemma store_evidence_run (env : Env) (id : Z) (imageUri : string) (c : Coords)
    (address : string) (w : World) :
  let key := upload_key env imageUri in
  let p := reject_patch (public_url env key) (latitude c) (longitude c)
             address (futureDate env) in
  store_evidence env id imageUri c address w =
  match fetched env imageUri with
  | Rejected e => (logged [Called (Fetch imageUri)] w, Throw e)
  | Resolved body =>
      match upload_error env with
      | Some e =>
          (logged [Called (Fetch imageUri); Called (StorageUpload key)] w, Throw e)
      | None =>
          match bucket w !! key with
          | Some _ =>
              (logged [Called (Fetch imageUri); Called (StorageUpload key)] w,
               Throw already_exists_message)
          | None =>
              match update_error env with
              | Some e =>
                  ({| table := table w;
                      bucket := <[key := uploaded imageUri body]> (bucket w);
                      log := log w ++ [Called (Fetch imageUri);
                                       Called (StorageUpload key);
                                       Called (TableUpdate id p)] |}, Throw e)
              | None =>
                  ({| table := alter (write_row (commit_time env) p) id (table w);
                      bucket := <[key := uploaded imageUri body]> (bucket w);
                      log := log w ++ [Called (Fetch imageUri);
                                       Called (StorageUpload key);
                                       Called (TableUpdate id p);
                                       Alerted "Success" success_message;
                                       Refreshed] |}, Val tt)
              end
          end
      end
  end.
Proof.
  cbv zeta. unfold store_evidence, storage_upload, table_update, upload_key, logged.
  run.
  destruct (fetched env imageUri) as [body|e]; cbn; [| done].
  destruct (upload_error env) as [e|]; cbn;
    [rewrite <- !app_assoc; reflexivity|].
  destruct (bucket w !! _) as [o|]; cbn;
    [rewrite <- !app_assoc; reflexivity|].
  destruct (update_error env) as [e|]; cbn; rewrite <- !app_assoc; reflexivity.
Qed.

Lemma handleImageSelection_try_run (env : Env) (id : Z) (cd : option ComplaintData)
    (source : Source) (w : World) :
  handleImageSelection_try env id cd source w =
  match launch_picker env source w with
  | (w1, Val result) =>
      match picked result with
      | None => (w1, Return)
      | Some asset =>
          match resolve_coordinates env (exif asset) w1 with
          | (w2, Val (Some c)) =>
              store_evidence env id (uri asset) c (address_for env c)
                (logged [Called (ReverseGeocode c)] w2)
          | (w2, Val None) => (logged [Alerted "Error" gps_message] w2, Return)
          | (w2, Return) => (w2, Return)
          | (w2, Throw e) => (w2, Throw e)
          end
      end
  | (w1, Return) => (w1, Return)
  | (w1, Throw e) => (w1, Throw e)
  end.
Proof.
  unfold handleImageSelection_try, picked, bind at 1.
  destruct (launch_picker env source w) as [w1 [result| |e]]; try reflexivity.
  destruct (if canceled result then None else head (assets result)) as [asset|];
    [| reflexivity].
  unfold bind at 1.
  destruct (resolve_coordinates env (exif asset) w1) as [w2 [[c|]| |e]];
    try reflexivity.
  unfold bind at 1. by rewrite resolve_address_run.
Qed.

Lemma quiet_stores {A} (m : M A) (w w' : World) (r : Res A) :
  quiet m -> m w = (w', r) ->
  table w' = table w /\ bucket w' = bucket w /\
  updates (log w') = updates (log w) /\ uploads (log w') = uploads (log w).
Proof.
  intros Hq E. destruct (Hq w) as (evs & Hw & Hu & Hk).
  rewrite E in Hw. cbn in Hw. subst w'. cbn.
  by rewrite updates_app, uploads_app, Hu, Hk, !app_nil_r.
Qed.

Lemma handleRejectStatus_try_quiet (env : Env) (id : Z) :
  quiet (handleRejectStatus_try env id).
Proof.
  intros w. unfold handleRejectStatus_try, table_select_single. run.
  destruct (select_error env) as [e|]; cbn;
    [quiet_by [Called (TableSelect id)]|].
  destruct (table w !! id) as [c|]; cbn.
  - quiet_by [Called (TableSelect id);
              Alerted "Select Image Source" "Choose how you want to add a new image"].
  - quiet_by [Called (TableSelect id)].
Qed.

(** How the last part ends: with the write done, or with an exception that
    leaves the table as it was and, unless it is the refusal of the write
    itself, the bucket too. *)
Lemma store_evidence_outcome (env : Env) (id : Z) (imageUri : string) (c : Coords)
    (address : string) (w : World) :
  let p := reject_patch (public_url env (upload_key env imageUri))
             (latitude c) (longitude c) address (futureDate env) in
  match store_evidence env id imageUri c address w with
  | (w', Val _) =>
      upload_error env = None /\ update_error env = None /\
      table w' = alter (write_row (commit_time env) p) id (table w) /\
      is_Some (bucket w' !! upload_key env imageUri) /\
      updates (log w') = (updates (log w) ++ [(id, p)])%list
  | (w', Return) => False
  | (w', Throw e) =>
      table w' = table w /\
      (bucket w' <> bucket w -> upload_error env = None /\ update_error env = Some e)
  end.
Proof.
  cbv zeta. rewrite store_evidence_run. cbv zeta.
  destruct (fetched env imageUri) as [body|e]; [| by split].
  destruct (upload_error env) as [e|]; [by split|].
  destruct (bucket w !! upload_key env imageUri) as [o|]; [by split|].
  destruct (update_error env) as [e|]; [by split|].
  cbn [table bucket log]. repeat split.
  - rewrite lookup_insert_eq. by eexists.
  - by rewrite updates_app.
Qed.

Lemma handleRejectStatus_run (env : Env) (id : Z) (w : World) :
  handleRejectStatus env id w =
  match handleRejectStatus_try env id w with
  | (w1, Val cd) =>
      match source_of (pressed env) with
      | Some source => handleImageSelection env id cd source w1
      | None => w1
      end
  | (w1, Throw e) =>
      logged [Alerted "Error" (message_or e "Failed to process rejection")] w1
  | (w1, Return) => w1
  end.
Proof.
  unfold handleRejectStatus.
  destruct (handleRejectStatus_try env id w) as [w1 [cd| |e]]; try reflexivity.
  by destruct (pressed env).
Qed.

Lemma handleImageSelection_run (env : Env) (id : Z) (cd : option ComplaintData)
    (source : Source) (w : World) :
  handleImageSelection env id cd source w =
  match handleImageSelection_try env id cd source w with
  | (w', Throw e) => logged [Alerted "Error" (message_or e "Failed to update image")] w'
  | (w', _) => w'
  end.
Proof.
  unfold handleImageSelection, try_catch.
  by destruct (handleImageSelection_try env id cd source w) as [w' [[]| |e]].
Qed.

(** The three ways the [try] block of [handleImageSelection] ends. *)
Lemma handleImageSelection_try_outcome (env : Env) (id : Z)
    (cd : option ComplaintData) (source : Source) (w : World) :
  match handleImageSelection_try env id cd source w with
  | (w', Val _) => upload_error env = None /\ update_error env = None
  | (w', Return) => table w' = table w /\ bucket w' = bucket w
  | (w', Throw e) =>
      table w' = table w /\
      (bucket w' <> bucket w -> upload_error env = None /\ update_error env = Some e)
  end.
Proof.
  rewrite handleImageSelection_try_run.
  destruct (launch_picker env source w) as [w1 r1] eqn:E1.
  destruct (quiet_stores _ _ _ _ (launch_picker_quiet env source) E1)
    as (T1 & B1 & _).
  destruct r1 as [result| |e]; [| done | by split].
  destruct (picked result) as [asset|]; [| done].
  destruct (resolve_coordinates env (exif asset) w1) as [w2 r2] eqn:E2.
  destruct (quiet_stores _ _ _ _ (resolve_coordinates_quiet env (exif asset)) E2)
    as (T2 & B2 & _).
  destruct r2 as [[c|]| |e].
  - pose proof (store_evidence_outcome env id (uri asset) c (address_for env c)
                  (logged [Called (ReverseGeocode c)] w2)) as H.
    cbv zeta in H.
    destruct (store_evidence env id (uri asset) c (address_for env c)
                (logged [Called (ReverseGeocode c)] w2)) as [w' [[]| |e]].
    + by destruct H as (? & ? & _).
    + done.
    + cbn [logged table bucket] in H. destruct H as [Ht Hb].
      split; [congruence|]. intros Hne. apply Hb. congruence.
  - cbn. split; congruence.
  - split; congruence.
  - split; [congruence|]. intros Hne. exfalso. apply Hne. congruence.
Qed.

(** C5: a run of Reject that stops early, by a return or by an exception,
    leaves the table as it was; the bucket differs afterwards only when the
    exception is the refusal of the final row update (the upload having
    succeeded), or when the run went through. *)
Theorem reject_failure_leaves_row (env : Env) (id : Z) (cd : option ComplaintData)
    (source : Source) (w : World) :
  match handleImageSelection_try env id cd source w with
  | (w', Val _) => upload_error env = None /\ update_error env = None
  | (w', Return) => table w' = table w /\ bucket w' = bucket w
  | (w', Throw e) =>
      table w' = table w /\
      (bucket w' <> bucket w -> upload_error env = None /\ update_error env = Some e)
  end /\
  (table (handleRejectStatus env id w) = table w \/ completes env id w) /\
  (bucket (handleRejectStatus env id w) <> bucket w ->
   upload_error env = None /\
   (completes env id w \/
    table (handleRejectStatus env id w) = table w /\ is_Some (update_error env))) /\
  (pressed env = CancelButton ->
   table (handleRejectStatus env id w) = table w /\
   bucket (handleRejectStatus env id w) = bucket w).
Proof.
  split; [apply handleImageSelection_try_outcome|].
  rewrite handleRejectStatus_run.
  destruct (handleRejectStatus_try env id w) as [w1 r1] eqn:E1.
  destruct (quiet_stores _ _ _ _ (handleRejectStatus_try_quiet env id) E1)
    as (T1 & B1 & _).
  assert (forall cd0 src0 w0,
             r1 = Val cd0 -> source_of (pressed env) = Some src0 ->
             handleImageSelection_try env id cd0 src0 w1 = (w0, Val tt) ->
             completes env id w) as Hdone.
  { intros cd0 src0 w0 -> Hs Ht. exists w1, cd0, src0, w0.
    repeat split; try done.
    by rewrite handleRejectStatus_run, E1, Hs, handleImageSelection_run, Ht. }
  destruct r1 as [cd1| |e]; cbn [logged table bucket].
  2: { repeat split; auto; try done. }
  2: { repeat split; auto; try done. }
  destruct (source_of (pressed env)) as [src|] eqn:Es.
  2: { repeat split; auto; try done. }
  rewrite handleImageSelection_run.
  pose proof (handleImageSelection_try_outcome env id cd1 src w1) as H.
  destruct (handleImageSelection_try env id cd1 src w1) as [w' [[]| |e]] eqn:Et;
    cbn [logged table bucket].
  - destruct H as [Hu Hp]. split; [right; by eapply Hdone|].
    split; [intros _; split; [done | left; by eapply Hdone]|].
    intros Hc. by rewrite Hc in Es.
  - destruct H as [Ht Hb]. split; [left; congruence|].
    split; [intros Hne; exfalso; apply Hne; congruence|].
    intros _. split; congruence.
  - destruct H as [Ht Hb]. split; [left; congruence|].
    split.
    + intros Hne. destruct Hb as [Hu Hp]; [congruence|].
      split; [done|]. right. split; [congruence | by rewrite Hp].
    + intros Hc. by rewrite Hc in Es.
Qed.







(** C9: once a coordinate is resolved, a geocoder that throws does not stop
    Reject: the address is the placeholder, the run goes on to the upload
    and the update with the resolved coordinate, and when these succeed
    the row is written with that coordinate and the placeholder. *)
Theorem geocoding_failure_recovered (env : Env) (id : Z) (cd : option ComplaintData)
    (source : Source) (w w1 w2 : World) (result : PickerResult) (asset : Asset)
    (c : Coords) (e : Error) :
  launch_picker env source w = (w1, Val result) ->
  picked result = Some asset ->
  resolve_coordinates env (exif asset) w1 = (w2, Val (Some c)) ->
  reverse_geocode env c = Rejected e ->
  resolve_address env c w2
  = (logged [Called (ReverseGeocode c)] w2, Val placeholder_address) /\
  handleImageSelection_try env id cd source w
  = store_evidence env id (uri asset) c placeholder_address
      (logged [Called (ReverseGeocode c)] w2) /\
  forall body,
    fetched env (uri asset) = Resolved body ->
    upload_error env = None ->
    bucket w !! upload_key env (uri asset) = None ->
    update_error env = None ->
    exists w',
      handleImageSelection_try env id cd source w = (w', Val tt) /\
      table w' =
        alter (write_row (commit_time env)
                 (reject_patch (public_url env (upload_key env (uri asset)))
                    (latitude c) (longitude c) placeholder_address (futureDate env)))
          id (table w) /\
      forall c0, table w !! id = Some c0 ->
        exists c', table w' !! id = Some c' /\
          Columns.location c' = placeholder_address /\
          Columns.latitude c' = json_number (latitude c) /\
          Columns.longitude c' = json_number (longitude c) /\
          Columns.status c' = pending.
Proof.
  intros E1 Hp E2 Hg.
  destruct (quiet_stores _ _ _ _ (launch_picker_quiet env source) E1)
    as (T1 & B1 & _).
  destruct (quiet_stores _ _ _ _ (resolve_coordinates_quiet env (exif asset)) E2)
    as (T2 & B2 & _).
  assert (address_for env c = placeholder_address) as Ha
    by (unfold address_for; by rewrite Hg).
  split; [by rewrite resolve_address_run, Ha|].
  assert (handleImageSelection_try env id cd source w
          = store_evidence env id (uri asset) c placeholder_address
              (logged [Called (ReverseGeocode c)] w2)) as Hrun
    by (by rewrite handleImageSelection_try_run, E1, Hp, E2, Ha).
  split; [exact Hrun|].
  intros body Hf Hu Hk Hd.
  rewrite Hrun, store_evidence_run. cbv zeta.
  cbn [logged table bucket log].
  rewrite Hf, Hu, B2, B1, Hk, Hd.
  eexists. split; [reflexivity|]. cbn [table].
  rewrite T2, T1. split; [reflexivity|].
  intros c0 Hc0. eexists. split; [by rewrite lookup_alter_eq, Hc0|].
  repeat split.
Qed.

Lemma geocoding_failure_recovered_witness :
  resolve_address (Scene.env_no_geocoder (Some Scene.exif_40N_74W))
    {| latitude := Fin 40; longitude := Fin (-74) |}
    (logged [Called RequestCameraPermissions; Called LaunchCamera] Scene.world)
  = (logged [Called (ReverseGeocode {| latitude := Fin 40; longitude := Fin (-74) |})]
       (logged [Called RequestCameraPermissions; Called LaunchCamera] Scene.world),
     Val placeholder_address).
Proof.
  exact (proj1 (geocoding_failure_recovered
                  (Scene.env_no_geocoder (Some Scene.exif_40N_74W)) 7 None camera
                  Scene.world
                  (logged [Called RequestCameraPermissions; Called LaunchCamera] Scene.world)
                  (logged [Called RequestCameraPermissions; Called LaunchCamera] Scene.world)
                  (Scene.photo (Some Scene.exif_40N_74W))
                  {| uri := "file:///cache/photo.jpg"; exif := Some Scene.exif_40N_74W |}
                  {| latitude := Fin 40; longitude := Fin (-74) |}
                  "Geocoder unavailable"
                  eq_refl eq_refl eq_refl eq_refl)).
Defined.

(** ** The garbled triple *)

(** C2 at the triple "abc", 30, 0: the text that is no number is read as
    zero, the triple converts to 0.5 degrees instead of being invalid, the
    device is not asked for its position, and the row receives the
    latitude 0.5. *)
Theorem garbled_component_read_as_zero :
  parseRational (JString "abc") = Fin 0 /\
  dmsToDecimal (JArray [JString "abc"; num 30; num 0]) (JString "N")
  = Some (Fin (1 # 2)) /\
  getCoordsFromExif Scene.exif_garbled
  = Some {| latitude := Fin (1 # 2); longitude := Fin (-74) |} /\
  log (handleImageSelection (Scene.env (Some Scene.exif_garbled)) 7 None camera
         Scene.world)
  = [Called RequestCameraPermissions; Called LaunchCamera;
     Called (ReverseGeocode {| latitude := Fin (1 # 2); longitude := Fin (-74) |});
     Called (Fetch "file:///cache/photo.jpg");
     Called (StorageUpload "1700000700000.jpg");
     Called (TableUpdate 7
               (reject_patch "https://example.org/storage/1700000700000.jpg"
                  (Fin (1 # 2)) (Fin (-74))
                  "12 Canal Road, Pune, Maharashtra, India" 1700000702250));
     Alerted "Success" success_message;
     Refreshed] /\
  Columns.latitude <$>
    table (handleImageSelection (Scene.env (Some Scene.exif_garbled)) 7 None camera
             Scene.world) !! 7
  = Some (Some (1 # 2)).
Proof. repeat split; vm_compute; reflexivity. Qed.

(** * Further properties *)

(** ** Texts with a slash are no numbers *)

Lemma has_cons_ne (c x : ascii) (l : list ascii) :
  has c (x :: l) = true -> ascii_eqb c x = false -> has c l = true.
Proof. unfold has, ascii_eqb. cbn. intros H E. by rewrite E in H. Qed.

Lemma read_digits_keeps (c : ascii) (base : Z) (val : ascii -> option Z)
    (l : list ascii) (acc : Z) (cnt : nat) :
  val c = None -> has c l = true ->
  has c (snd (read_digits base val acc cnt l)) = true.
Proof.
  intros Hv. revert acc cnt. induction l as [|x l IH]; intros acc cnt Hl; [done|].
  cbn [read_digits]. destruct (val x) as [d|] eqn:Ex; [| exact Hl].
  destruct (d <? base); [| exact Hl].
  apply IH. apply (has_cons_ne c x l Hl).
  unfold ascii_eqb. destruct (Ascii.eqb_spec c x) as [->|]; [congruence | done].
Qed.

Lemma read_digits_slash_rest (base : Z) (val : ascii -> option Z) (l : list ascii) :
  val "/"%char = None -> has "/" l = true ->
  exists v n x r, read_digits base val 0 0 l = (v, n, x :: r) /\ has "/" (x :: r) = true.
Proof.
  intros Hv Hl.
  pose proof (read_digits_keeps "/" base val l 0 0 Hv Hl) as H.
  destruct (read_digits base val 0 0 l) as [[v n] [|x r]]; [done|].
  by exists v, n, x, r.
Qed.

Lemma read_exponent_slash (l : list ascii) :
  has "/" l = true -> read_exponent l = None.
Proof.
  destruct l as [|c r]; [done|]. intros Hl. cbn [read_exponent].
  destruct (ascii_eqb c "e" || ascii_eqb c "E") eqn:Ee; [| done].
  assert (has "/" r = true) as Hr.
  { apply (has_cons_ne _ _ _ Hl). unfold ascii_eqb in *.
    destruct (Ascii.eqb_spec "/" c) as [<-|]; [done | done]. }
  assert (forall sgn r1, has "/" r1 = true ->
            match read_digits 10 digit_val 0 0 r1 with
            | (e, S _, []) => Some (sgn * e)
            | _ => None
            end = None) as Hd.
  { intros sgn r1 H1.
    destruct (read_digits_slash_rest 10 digit_val r1 eq_refl H1)
      as (v & n & x & r' & -> & _). by destruct n. }
  destruct r as [|s r']; [done|].
  destruct (ascii_eqb s "-") eqn:E1.
  { apply Hd. apply (has_cons_ne _ _ _ Hr). unfold ascii_eqb in *.
    apply Ascii.eqb_eq in E1. by subst s. }
  destruct (ascii_eqb s "+") eqn:E2.
  { apply Hd. apply (has_cons_ne _ _ _ Hr). unfold ascii_eqb in *.
    apply Ascii.eqb_eq in E2. by subst s. }
  by apply Hd.
Qed.

Lemma read_unsigned_slash (l : list ascii) :
  has "/" l = true -> read_unsigned l = NaN.
Proof.
  intros Hl. unfold read_unsigned.
  destruct (read_digits_slash_rest 10 digit_val l eq_refl Hl)
    as (ip & ni & x & r & -> & Hr).
  destruct (ascii_eqb x ".") eqn:Ex.
  - assert (has "/" r = true) as Hr'.
    { apply (has_cons_ne _ _ _ Hr). unfold ascii_eqb in *.
      apply Ascii.eqb_eq in Ex. by subst x. }
    destruct (read_digits_slash_rest 10 digit_val r eq_refl Hr')
      as (fp & nf & y & r2 & -> & H2).
    rewrite (read_exponent_slash _ H2). by destruct ni, nf.
  - rewrite (read_exponent_slash _ Hr). by destruct ni.
Qed.

Lemma read_decimal_slash (l : list ascii) :
  has "/" l = true -> read_decimal l = NaN.
Proof.
  intros Hl. unfold read_decimal.
  destruct (list_ascii_eqb l Infinity_chars) eqn:E; [| by apply read_unsigned_slash].
  unfold list_ascii_eqb in E. apply String.eqb_eq in E.
  apply (f_equal chars) in E. unfold chars, unchars in E.
  rewrite !list_ascii_of_string_of_list_ascii in E. by subst l.
Qed.

Lemma read_radix_slash (base : Z) (l : list ascii) :
  has "/" l = true -> read_radix base l = NaN.
Proof.
  intros Hl. unfold read_radix.
  destruct (read_digits_slash_rest base hex_val l eq_refl Hl)
    as (v & n & x & r & -> & _). by destruct n.
Qed.

Lemma has_drop_space (l : list ascii) : has "/" (drop_space l) = has "/" l.
Proof.
  induction l as [|x l IH]; [done|]. cbn [drop_space].
  destruct (is_space x) eqn:E; [| done].
  rewrite IH. change (has "/" (x :: l)) with (ascii_eqb "/" x || has "/" l).
  assert (ascii_eqb "/" x = false) as ->; [| done].
  unfold ascii_eqb. destruct (Ascii.eqb_spec "/" x) as [<-|]; [by vm_compute in E | done].
Qed.

Lemma has_rev (c : ascii) (l : list ascii) : has c (rev l) = has c l.
Proof.
  unfold has. induction l as [|x l IH]; [done|].
  cbn. rewrite existsb_app, IH. cbn. by rewrite orb_false_r, orb_comm.
Qed.

Lemma has_trim (l : list ascii) : has "/" (trim l) = has "/" l.
Proof. unfold trim. by rewrite has_rev, has_drop_space, has_rev, has_drop_space. Qed.

Lemma StringToNumber_slash (s : string) :
  includes "/" s = true -> StringToNumber s = NaN.
Proof.
  unfold includes, StringToNumber. fold (has "/" (chars s)).
  rewrite <- has_trim. destruct (trim (chars s)) as [|c r]; [done|]. intros Hl.
  assert (forall k, ascii_eqb c k = true -> ascii_eqb "/" k = false ->
                    has "/" r = true) as Hnext.
  { intros k Hk Hne. apply (has_cons_ne _ _ _ Hl).
    unfold ascii_eqb in *. apply Ascii.eqb_eq in Hk. by subst c. }
  destruct (ascii_eqb c "-") eqn:E1.
  { by rewrite (read_decimal_slash r (Hnext _ E1 eq_refl)). }
  destruct (ascii_eqb c "+") eqn:E2.
  { by rewrite (read_decimal_slash r (Hnext _ E2 eq_refl)). }
  destruct (ascii_eqb c "0") eqn:E3; [| by apply read_decimal_slash].
  pose proof (Hnext _ E3 eq_refl) as Hr.
  destruct r as [|x r']; [done|].
  assert (forall k, ascii_eqb x k = true -> ascii_eqb "/" k = false ->
                    has "/" r' = true) as Hnext'.
  { intros k Hk Hne. apply (has_cons_ne _ _ _ Hr).
    unfold ascii_eqb in *. apply Ascii.eqb_eq in Hk. by subst x. }
  destruct (ascii_eqb x "x") eqn:X1; [by apply read_radix_slash, (Hnext' _ X1)|].
  destruct (ascii_eqb x "X") eqn:X2; [by apply read_radix_slash, (Hnext' _ X2)|].
  destruct (ascii_eqb x "o") eqn:X3; [by apply read_radix_slash, (Hnext' _ X3)|].
  destruct (ascii_eqb x "O") eqn:X4; [by apply read_radix_slash, (Hnext' _ X4)|].
  destruct (ascii_eqb x "b") eqn:X5; [by apply read_radix_slash, (Hnext' _ X5)|].
  destruct (ascii_eqb x "B") eqn:X6; [by apply read_radix_slash, (Hnext' _ X6)|].
  cbn [orb]. by apply read_decimal_slash.
Qed.

Lemma split_three (a b rest : string) :
  includes "/" a = false -> includes "/" b = false ->
  exists more, split "/" (a ++ "/" ++ b ++ "/" ++ rest) = a :: b :: more.
Proof.
  unfold includes, split. intros Ha Hb.
  change (a ++ "/" ++ b ++ "/" ++ rest) with (a ++ String "/" (b ++ String "/" rest)).
  rewrite chars_app. change (chars (String "/" (b ++ String "/" rest)))
    with ("/"%char :: chars (b ++ String "/" rest)).
  rewrite (split_chars_first _ _ _ Ha), chars_app.
  change (chars (String "/" rest)) with ("/"%char :: chars rest).
  rewrite (split_chars_first _ _ _ Hb). cbn [map]. rewrite !unchars_chars.
  by eexists.
Qed.

Lemma parseRational_slash (s : string) :
  includes "/" s = true ->
  parseRational (JString s) =
  match map StringToNumber (split "/" s) with
  | n :: d :: _ =>
      if negb (isNaN n) && negb (isNaN d) && negb (is_zero d) then div n d else Fin 0
  | _ => Fin 0
  end.
Proof.
  intros Hs. unfold parseRational. rewrite Hs. cbn [Number].
  by rewrite (StringToNumber_slash s Hs).
Qed.

(** X1: a text [n/d] whose numerator or denominator is no number, or whose
    denominator is zero, is read as 0. *)
Theorem parseRational_no_quotient (n d : string) :
  includes "/" n = false -> includes "/" d = false ->
  StringToNumber n = NaN \/ StringToNumber d = NaN \/ is_zero (StringToNumber d) = true ->
  parseRational (JString (n ++ "/" ++ d)) = Fin 0.
Proof.
  intros Hn Hd H.
  change (n ++ "/" ++ d) with (n ++ String "/" d).
  rewrite parseRational_slash by apply includes_middle.
  rewrite (split_two _ _ _ Hn Hd). cbn [map].
  destruct H as [-> | [-> | H]]; [done | |].
  - by rewrite andb_false_r.
  - by rewrite H, andb_false_r.
Qed.

Lemma parseRational_no_quotient_witness :
  parseRational (JString ("5" ++ "/" ++ "0")) = Fin 0.
Proof.
  apply parseRational_no_quotient; [reflexivity | reflexivity |].
  right. right. reflexivity.
Defined.

(** X2: what follows a second slash is ignored: [n/d/rest] is read as [n/d]. *)
Theorem parseRational_extra_parts (n d rest : string) :
  includes "/" n = false -> includes "/" d = false ->
  parseRational (JString (n ++ "/" ++ d ++ "/" ++ rest))
  = parseRational (JString (n ++ "/" ++ d)).
Proof.
  intros Hn Hd.
  destruct (split_three n d rest Hn Hd) as [more Hs].
  rewrite (parseRational_slash (n ++ "/" ++ d ++ "/" ++ rest))
    by apply (includes_middle "/" n (d ++ "/" ++ rest)).
  rewrite (parseRational_slash (n ++ "/" ++ d))
    by apply (includes_middle "/" n d).
  rewrite Hs. change (n ++ "/" ++ d) with (n ++ String "/" d).
  by rewrite (split_two _ _ _ Hn Hd).
Qed.

Lemma parseRational_extra_parts_witness :
  parseRational (JString ("1" ++ "/" ++ "2" ++ "/" ++ "3")) = parseRational (JString ("1" ++ "/" ++ "2")).
Proof. apply parseRational_extra_parts; reflexivity. Defined.

(** X3: a text without a slash that is a numeric literal is read as its
    number. *)
Theorem parseRational_numeric_text (s : string) (q : Q) :
  includes "/" s = false -> StringToNumber s = Fin q ->
  exists q', parseRational (JString s) = Fin q' /\ q' == q.
Proof.
  intros Hs Hq. unfold parseRational. rewrite Hs. cbn [Number]. rewrite Hq.
  unfold or_else, truthy. destruct (Qeq_bool q 0) eqn:E; cbn.
  - exists 0%Q. split; [done|]. apply Qeq_bool_iff in E. by rewrite E.
  - exists q. split; [done | reflexivity].
Qed.

Lemma parseRational_numeric_text_witness :
  exists q', parseRational (JString " 26.5 ") = Fin q' /\ q' == 53 # 2.
Proof. apply parseRational_numeric_text; reflexivity. Defined.

Lemma div_NaN (n d : number) :
  isNaN n = false -> isNaN d = false -> is_zero d = false ->
  isNaN (div n d) = true -> infinite n = true /\ infinite d = true.
Proof.
  destruct n as [x| | |], d as [y| | |]; cbn; try done.
  - intros _ _ ->. done.
  - intros _ _ _. by destruct (Qneg_b y).
  - intros _ _ _. by destruct (Qneg_b y).
Qed.

(** The precise reach of the guard of [dmsToDecimal]. *)
Lemma parseRational_NaN_cases (v : value) :
  isNaN (parseRational v) = true ->
  v = JNumber NaN \/
  exists s n d more,
    v = JString s /\ includes "/" s = true /\
    map StringToNumber (split "/" s) = n :: d :: more /\
    infinite n = true /\ infinite d = true.
Proof.
  intros H. destruct (parseRational_NaN v H) as [-> | (s & -> & Hs)]; [by left|].
  right. rewrite (parseRational_slash s Hs) in H.
  destruct (map StringToNumber (split "/" s)) as [|n [|d more]] eqn:E; try done.
  destruct (negb (isNaN n) && negb (isNaN d) && negb (is_zero d)) eqn:G; [| done].
  apply andb_true_iff in G as [[Gn Gd]%andb_true_iff Gz].
  apply negb_true_iff in Gn, Gd, Gz.
  destruct (div_NaN n d Gn Gd Gz H) as [In Id].
  by exists s, n, d, more.
Qed.

(** X4: an array of three elements or more converts to null exactly when one of
    its first three is the number NaN or a text whose two parts around the
    slash are both infinite; every other component, also one that is no
    number at all, lets the conversion go through. *)
Theorem dmsToDecimal_null_only (a b c : value) (rest : list value) (ref : value) :
  dmsToDecimal (JArray (a :: b :: c :: rest)) ref = None <->
  never_a_number a \/ never_a_number b \/ never_a_number c.
Proof.
  unfold dmsToDecimal. cbn [existsb]. rewrite orb_false_r. split.
  - destruct (isNaN (parseRational a)) eqn:Ea;
      [intros _; left; by apply parseRational_NaN_cases|].
    destruct (isNaN (parseRational b)) eqn:Eb;
      [intros _; right; left; by apply parseRational_NaN_cases|].
    destruct (isNaN (parseRational c)) eqn:Ec;
      [intros _; right; right; by apply parseRational_NaN_cases|].
    done.
  - assert (forall v, never_a_number v -> isNaN (parseRational v) = true) as Hn.
    { intros v [-> | (s & n & d & more & -> & Hs & E & In & Id)]; [done|].
      rewrite (parseRational_slash s Hs), E.
      by destruct n, d. }
    intros [H | [H | H]]; apply Hn in H; rewrite H; by rewrite ?orb_true_r.
Qed.

(** ** The prompt over time *)

Lemma isRecentlyUpdated_true_iff (now : Z) (c : Complaint) :
  isRecentlyUpdated now c = true <->
  exists u s, Columns.updated_at c = ts_at u /\ Columns.submitted_date c = ts_at s /\
              s < u /\ now - u <= 7 * day.
Proof.
  destruct (Columns.updated_at c) as [| |u] eqn:Eu, (Columns.submitted_date c) as [| |s] eqn:Es.
  all: try (split; [| by intros (? & ? & ? & ? & _)];
            unfold isRecentlyUpdated; rewrite Eu, Es; cbn;
            rewrite ?andb_false_r; done).
  rewrite (isRecentlyUpdated_at now c u s Eu Es), andb_true_iff, Z.ltb_lt, Z.leb_le.
  split.
  - intros [H1 H2]. by exists u, s.
  - intros (u' & s' & [= <-] & [= <-] & H1 & H2). done.
Qed.

(** X5: a confirmation that is due at some time was due at every earlier
    time: once the window has lapsed it does not come back while the row
    stays as it is. *)
Theorem isRecentlyUpdated_expires (now now' : Z) (c : Complaint) :
  now <= now' -> isRecentlyUpdated now' c = true -> isRecentlyUpdated now c = true.
Proof.
  intros Hle. rewrite !isRecentlyUpdated_true_iff.
  intros (u & s & Hu & Hs & H1 & H2). exists u, s. repeat split; try done. lia.
Qed.

Lemma isRecentlyUpdated_expires_witness :
  isRecentlyUpdated 1700000700000 Scene.row = true.
Proof.
  apply (isRecentlyUpdated_expires 1700000700000 1700001000000); [lia | reflexivity].
Defined.

(** X6: a record one of whose two dates is a text that cannot be read as a
    date never needs a confirmation. *)
Theorem isRecentlyUpdated_unreadable (now : Z) (c : Complaint) :
  Columns.updated_at c = ts_invalid \/ Columns.submitted_date c = ts_invalid ->
  isRecentlyUpdated now c = false.
Proof.
  intros H. apply not_true_iff_false. rewrite isRecentlyUpdated_true_iff.
  intros (u & s & Hu & Hs & _). destruct H; congruence.
Qed.

Lemma isRecentlyUpdated_unreadable_witness :
  isRecentlyUpdated 1700000700000 Sample.garbled_row = false.
Proof. apply isRecentlyUpdated_unreadable. right. reflexivity. Defined.

(** X7: after Accept has committed, the confirmation of the row is due again
    exactly when the server stamped the write more than two seconds after
    the clock of the device, and the window since that stamp is open. *)
Theorem accept_then_prompt (env : Env) (id : Z) (st : Status) (w : World)
    (c : Complaint) (now : Z) :
  table w !! id = Some c -> update_error env = None ->
  exists c', table (handleAcceptStatus env id st w) !! id = Some c' /\
    (isRecentlyUpdated now c' = true <->
     new_date env + 2000 < commit_time env /\ now - commit_time env <= 7 * day).
Proof.
  intros Hc He. rewrite (handleAcceptStatus_commit env id st w He). cbn [table].
  eexists. split; [by rewrite lookup_alter_eq, Hc|].
  rewrite isRecentlyUpdated_true_iff. cbn. unfold futureDate. split.
  - intros (u & s & [= <-] & [= <-] & H1 & H2). split; lia.
  - intros [H1 H2]. eexists _, _. repeat split; lia.
Qed.

Lemma accept_then_prompt_witness :
  exists c', table (handleAcceptStatus (Scene.env None) 7 pending Scene.world) !! 7 = Some c' /\
    (isRecentlyUpdated 1700000800000 c' = true <->
     1700000700250 + 2000 < 1700000700400 /\ 1700000800000 - 1700000700400 <= 7 * day).
Proof.
  apply (accept_then_prompt (Scene.env None) 7 pending Scene.world Scene.row);
    reflexivity.
Defined.

(** ** Rows that are not there *)

Lemma alter_missing {A} (f : A -> A) (i : Z) (m : gmap Z A) :
  m !! i = None -> alter f i m = m.
Proof.
  intros H. apply map_eq. intros j. destruct (decide (j = i)) as [->|Hj].
  - by rewrite lookup_alter_eq, H.
  - by rewrite lookup_alter_ne.
Qed.

(** X8: Accept on an id that has no row changes nothing in the table and
    still reports success. *)
Theorem accept_missing_row (env : Env) (id : Z) (st : Status) (w : World) :
  table w !! id = None -> update_error env = None ->
  handleAcceptStatus env id st w =
  logged [Called (TableUpdate id (accept_patch (new_date env + 2000)));
          Alerted "OK" accept_ok_message; Refreshed] w.
Proof.
  intros Hc He. rewrite (handleAcceptStatus_commit env id st w He).
  by rewrite (alter_missing _ _ _ Hc).
Qed.

Lemma accept_missing_row_witness :
  handleAcceptStatus (Scene.env None) 8 pending Scene.world =
  logged [Called (TableUpdate 8 (accept_patch (1700000700250 + 2000)));
          Alerted "OK" accept_ok_message; Refreshed] Scene.world.
Proof. apply (accept_missing_row (Scene.env None)); reflexivity. Defined.

(** X9: Reject on an id that has no row reports the error of the select and
    stops: no dialog, no picker, no write. *)
Theorem reject_missing_row (env : Env) (id : Z) (w : World) :
  table w !! id = None -> select_error env = None ->
  handleRejectStatus env id w =
  logged [Called (TableSelect id); Alerted "Error" no_rows_message] w.
Proof.
  intros Hc He. unfold handleRejectStatus, handleRejectStatus_try, table_select_single.
  run. rewrite He. cbn. rewrite Hc. cbn. unfold logged. cbn.
  by rewrite <- !app_assoc.
Qed.

Lemma reject_missing_row_witness :
  handleRejectStatus (Scene.env None) 8 Scene.world =
  logged [Called (TableSelect 8); Alerted "Error" no_rows_message] Scene.world.
Proof. apply (reject_missing_row (Scene.env None)); reflexivity. Defined.

(** ** More of Reject *)

Lemma launch_picker_run (env : Env) (source : Source) (w : World) :
  launch_picker env source w =
  match granted_for env source with
  | Resolved true =>
      match launched env source with
      | Resolved result =>
          (logged [Called (permission_call source); Called (launch_call source)] w,
           Val result)
      | Rejected e =>
          (logged [Called (permission_call source); Called (launch_call source)] w,
           Throw e)
      end
  | Resolved false =>
      (logged [Called (permission_call source);
               Alerted "Permission Required" (permission_message source)] w, Return)
  | Rejected e => (logged [Called (permission_call source)] w, Throw e)
  end.
Proof.
  unfold launch_picker, logged. destruct source; run.
  - destruct (camera_granted env) as [[|]|e]; cbn; try reflexivity.
    + destruct (launched env camera); cbn; rewrite <- !app_assoc; reflexivity.
    + rewrite <- !app_assoc; reflexivity.
  - destruct (media_granted env) as [[|]|e]; cbn; try reflexivity.
    + destruct (launched env gallery); cbn; rewrite <- !app_assoc; reflexivity.
    + rewrite <- !app_assoc; reflexivity.
Qed.

Lemma resolve_coordinates_run (env : Env) (x : option Exif) (w : World) :
  resolve_coordinates env x w =
  match (match x with Some e => getCoordsFromExif e | None => None end) with
  | Some c => (w, Val (Some c))
  | None =>
      match foreground_status env with
      | Resolved status =>
          if String.eqb status "granted" then
            match current_position env with
            | Resolved pos =>
                (logged [Called RequestForegroundPermissions; Called GetCurrentPosition] w,
                 Val (Some pos))
            | Rejected e =>
                (logged [Called RequestForegroundPermissions; Called GetCurrentPosition] w,
                 Throw e)
            end
          else (logged [Called RequestForegroundPermissions] w, Val None)
      | Rejected e => (logged [Called RequestForegroundPermissions] w, Throw e)
      end
  end.
Proof.
  unfold resolve_coordinates, logged.
  destruct (match x with Some e => getCoordsFromExif e | None => None end); run;
    [reflexivity|].
  destruct (foreground_status env) as [status|e]; cbn; [| reflexivity].
  destruct (String.eqb status "granted"); cbn; [| reflexivity].
  destruct (current_position env); cbn; rewrite <- !app_assoc; reflexivity.
Qed.

(** X10: when the permission for the chosen source is refused, the run ends
    with the alert that asks for it; the picker is not launched and the
    stores are untouched. *)
Theorem source_permission_refused (env : Env) (id : Z) (cd : option ComplaintData)
    (source : Source) (w : World) :
  granted_for env source = Resolved false ->
  handleImageSelection env id cd source w =
  logged [Called (permission_call source);
          Alerted "Permission Required" (permission_message source)] w.
Proof.
  intros H. by rewrite handleImageSelection_run, handleImageSelection_try_run,
    launch_picker_run, H.
Qed.

Lemma source_permission_refused_witness :
  handleImageSelection Sample.env_no_camera 7 None camera Scene.world =
  logged [Called RequestCameraPermissions;
          Alerted "Permission Required" "Camera permission is needed."] Scene.world.
Proof. apply (source_permission_refused Sample.env_no_camera 7 None camera). reflexivity. Defined.

(** X11: an EXIF record whose latitude or longitude is no array of three
    elements (a missing tag, a decimal number) gives no coordinates, and
    Reject then resolves the coordinates as for an image without EXIF. *)
Theorem exif_without_triples (env : Env) (x : Exif) (w : World) :
  is_triple (GPSLatitude x) = false \/ is_triple (GPSLongitude x) = false ->
  getCoordsFromExif x = None /\
  resolve_coordinates env (Some x) w = resolve_coordinates env None w.
Proof.
  intros H.
  assert (forall v ref, is_triple v = false -> dmsToDecimal (or_values v) ref = None) as Hd.
  { intros v ref Hv. unfold or_values. destruct (truthy_value v); [| done].
    by destruct v as [| | | | |[|? [|? [|? ?]]]|]. }
  assert (getCoordsFromExif x = None) as Hx.
  { unfold getCoordsFromExif. destruct H as [H|H]; rewrite (Hd _ _ H); [done|].
    by destruct (dmsToDecimal _ _). }
  split; [exact Hx|]. by rewrite !resolve_coordinates_run, Hx.
Qed.

Lemma exif_without_triples_witness :
  getCoordsFromExif Sample.exif_decimal = None /\
  resolve_coordinates (Scene.env None) (Some Sample.exif_decimal) Scene.world
  = resolve_coordinates (Scene.env None) None Scene.world.
Proof. apply exif_without_triples. left. reflexivity. Defined.

(** X12: when the EXIF record of the picked image yields coordinates, the run
    goes on with them and never asks for the permission or the position
    of the device. *)
Theorem exif_coordinates_preferred (env : Env) (id : Z) (cd : option ComplaintData)
    (source : Source) (w w1 : World) (result : PickerResult) (asset : Asset)
    (x : Exif) (c : Coords) :
  launch_picker env source w = (w1, Val result) ->
  picked result = Some asset ->
  exif asset = Some x ->
  getCoordsFromExif x = Some c ->
  handleImageSelection_try env id cd source w
  = store_evidence env id (uri asset) c (address_for env c)
      (logged [Called (ReverseGeocode c)] w1) /\
  positioning (log (handleImageSelection env id cd source w)) = positioning (log w).
Proof.
  intros E1 Hp Hx Hc.
  assert (handleImageSelection_try env id cd source w
          = store_evidence env id (uri asset) c (address_for env c)
              (logged [Called (ReverseGeocode c)] w1)) as Hrun.
  { by rewrite handleImageSelection_try_run, E1, Hp, resolve_coordinates_run, Hx, Hc. }
  split; [exact Hrun|].
  assert (positioning (log w1) = positioning (log w)) as H1.
  { rewrite launch_picker_run in E1. unfold positioning.
    destruct (granted_for env source) as [[|]|e]; [| done | done].
    destruct (launched env source); [| done].
    injection E1 as <- _. cbn. rewrite List.filter_app.
    destruct source; cbn; by rewrite app_nil_r. }
  rewrite handleImageSelection_run, Hrun, store_evidence_run. cbv zeta.
  unfold positioning in *.
  assert (forall l evs, List.filter is_positioning l = List.filter is_positioning (log w) ->
            List.filter is_positioning evs = [] ->
            List.filter is_positioning (l ++ evs) = List.filter is_positioning (log w))
    as Hq by (intros l evs Hl He; by rewrite List.filter_app, Hl, He, app_nil_r).
  destruct (fetched env (uri asset)); cbn [logged log];
    [| rewrite <- !app_assoc; by apply Hq].
  destruct (upload_error env); cbn [logged log];
    [rewrite <- !app_assoc; by apply Hq|].
  destruct (bucket _ !! _); cbn [logged log bucket];
    [rewrite <- !app_assoc; by apply Hq|].
  destruct (update_error env); cbn [logged log]; rewrite <- !app_assoc; by apply Hq.
Qed.

Lemma exif_coordinates_preferred_witness :
  positioning (log (handleImageSelection (Scene.env (Some Scene.exif_40N_74W)) 7 None
                      camera Scene.world))
  = positioning (log Scene.world).
Proof.
  exact (proj2 (exif_coordinates_preferred (Scene.env (Some Scene.exif_40N_74W)) 7 None
                  camera Scene.world
                  (logged [Called RequestCameraPermissions; Called LaunchCamera] Scene.world)
                  (Scene.photo (Some Scene.exif_40N_74W))
                  {| uri := "file:///cache/photo.jpg"; exif := Some Scene.exif_40N_74W |}
                  Scene.exif_40N_74W
                  {| latitude := Fin 40; longitude := Fin (-74) |}
                  eq_refl eq_refl eq_refl eq_refl)).
Defined.



Lemma alerts_app (a b : list Event) : alerts (a ++ b) = (alerts a ++ alerts b)%list.
Proof. apply omap_app. Qed.

Lemma launch_picker_alerts (env : Env) (source : Source) (w : World) :
  exists evs,
    fst (launch_picker env source w) = logged evs w /\
    match snd (launch_picker env source w) with
    | Return => exists h m, alerts evs = [(h, m)]
    | _ => alerts evs = []
    end.
Proof.
  rewrite launch_picker_run.
  destruct (granted_for env source) as [[|]|e].
  - destruct (launched env source); eexists; (split; [reflexivity|]);
      by destruct source.
  - eexists. split; [reflexivity|]. destruct source; by eexists _, _.
  - eexists. split; [reflexivity|]. by destruct source.
Qed.

Lemma resolve_coordinates_alerts (env : Env) (x : option Exif) (w : World) :
  exists evs,
    fst (resolve_coordinates env x w) = logged evs w /\ alerts evs = [] /\
    snd (resolve_coordinates env x w) <> Return.
Proof.
  rewrite resolve_coordinates_run.
  destruct (match x with Some e => getCoordsFromExif e | None => None end).
  { exists []. by rewrite logged_nil. }
  destruct (foreground_status env) as [status|e]; [| by eexists].
  destruct (String.eqb status "granted"); [| by eexists].
  destruct (current_position env); by eexists.
Qed.

Lemma store_evidence_alerts (env : Env) (id : Z) (imageUri : string) (c : Coords)
    (address : string) (w : World) :
  exists evs,
    log (fst (store_evidence env id imageUri c address w)) = (log w ++ evs)%list /\
    match snd (store_evidence env id imageUri c address w) with
    | Val _ => alerts evs = [("Success", success_message)]
    | Return => False
    | Throw _ => alerts evs = []
    end.
Proof.
  rewrite store_evidence_run. cbv zeta.
  destruct (fetched env imageUri); [| by eexists].
  destruct (upload_error env); [by eexists|].
  destruct (bucket w !! _); [by eexists|].
  destruct (update_error env); by eexists.
Qed.

(** X14: every run of [handleImageSelection] shows exactly one alert, except
    when the user leaves the picker without an image: then it shows none. *)
Theorem every_end_but_dismissal_alerts (env : Env) (id : Z)
    (cd : option ComplaintData) (source : Source) (w : World) :
  exists evs,
    log (handleImageSelection env id cd source w) = (log w ++ evs)%list /\
    (dismissed env source w /\ alerts evs = [] \/
     ~ dismissed env source w /\ exists h m, alerts evs = [(h, m)]).
Proof.
  rewrite handleImageSelection_run, handleImageSelection_try_run.
  unfold dismissed.
  destruct (launch_picker_alerts env source w) as (evs1 & H1 & A1).
  destruct (launch_picker env source w) as [w1 r1]. cbn [fst snd] in H1, A1.
  subst w1.
  destruct r1 as [result| |e].
  2: { exists evs1. split; [done|]. right. split; [| done].
       by intros (? & ? & [=] & _). }
  2: { eexists. split; [cbn; by rewrite <- app_assoc|]. right.
       split; [by intros (? & ? & [=] & _)|].
       rewrite alerts_app, A1. by eexists _, _. }
  destruct (picked result) as [asset|] eqn:Hp.
  2: { exists evs1. split; [done|]. left. split; [| done]. by eexists _, _. }
  assert (~ (exists w1 result0,
               (logged evs1 w, @Val PickerResult result) = (w1, Val result0) /\
               picked result0 = None)) as Hnd.
  { intros (? & ? & [= <- <-] & Hn). congruence. }
  destruct (resolve_coordinates_alerts env (exif asset) (logged evs1 w))
    as (evs2 & H2 & A2 & R2).
  destruct (resolve_coordinates env (exif asset) (logged evs1 w)) as [w2 r2].
  cbn [fst snd] in H2, R2. subst w2. rewrite logged_logged.
  destruct r2 as [[c|]| |e]; [| | done |].
  - rewrite logged_logged.
    destruct (store_evidence_alerts env id (uri asset) c (address_for env c)
                (logged ((evs1 ++ evs2) ++ [Called (ReverseGeocode c)]) w))
      as (evs3 & H3 & A3).
    destruct (store_evidence env id (uri asset) c (address_for env c)
                (logged ((evs1 ++ evs2) ++ [Called (ReverseGeocode c)]) w))
      as [w3 r3].
    cbn [fst snd logged log] in H3, A3.
    destruct r3 as [[]| |e]; [| done |].
    + eexists. split; [rewrite H3, <- app_assoc; reflexivity|]. right.
      split; [exact Hnd|].
      rewrite !alerts_app, A1, A2, A3. by eexists _, _.
    + eexists. split; [cbn; rewrite H3, <- !app_assoc; reflexivity|]. right.
      split; [exact Hnd|].
      rewrite !alerts_app, A1, A2, A3. by eexists _, _.
  - eexists. split; [cbn; rewrite <- !app_assoc; reflexivity|]. right.
    split; [exact Hnd|].
    rewrite !alerts_app, A1, A2. by eexists _, _.
  - eexists. split; [cbn; rewrite <- !app_assoc; reflexivity|]. right.
    split; [exact Hnd|].
    rewrite !alerts_app, A1, A2. by eexists _, _.
Qed.

(** ** The upload key *)

Lemma split_chars_nonempty (c : ascii) (l : list ascii) : split_chars c l <> [].
Proof.
  induction l as [|x l IH]; [done|]. cbn.
  destruct (ascii_eqb x c); [done|]. by destruct (split_chars c l).
Qed.

Lemma split_chars_pieces (c : ascii) (l : list ascii) :
  Forall (fun p => existsb (ascii_eqb c) p = false) (split_chars c l).
Proof.
  induction l as [|x l IH]; [by repeat constructor|]. cbn [split_chars].
  destruct (ascii_eqb x c) eqn:E; [by constructor|].
  assert (ascii_eqb c x = false) as E'
    by (unfold ascii_eqb in *; by rewrite Ascii.eqb_sym).
  destruct (split_chars c l) as [|p ps].
  { constructor; [| constructor]. unfold existsb. by rewrite E'. }
  inversion IH as [|? ? Hp Hps]; subst. constructor; [| done].
  change (existsb (ascii_eqb c) (x :: p)) with (ascii_eqb c x || existsb (ascii_eqb c) p).
  by rewrite E', Hp.
Qed.

Lemma chars_unchars (l : list ascii) : chars (unchars l) = l.
Proof. apply list_ascii_of_string_of_list_ascii. Qed.

Lemma split_last_piece (c : ascii) (s : string) :
  includes c (List.last (split c s) "") = false.
Proof.
  unfold split, includes.
  pose proof (split_chars_pieces c (chars s)) as H.
  pose proof (split_chars_nonempty c (chars s)) as Hne.
  induction (split_chars c (chars s)) as [|p ps IH]; [done|].
  inversion H as [|? ? Hp Hps]; subst.
  destruct ps as [|q qs]; [cbn; by rewrite chars_unchars|].
  apply IH; [done | done].
Qed.

(** X15: the extension used for the key and the content type of the upload
    is never empty and contains no dot. *)
Theorem file_extension_no_dot (uri : string) :
  includes "." (file_extension uri) = false /\ file_extension uri <> "".
Proof.
  unfold file_extension.
  destruct (String.eqb (List.last (split "." uri) "") "") eqn:E; [done|].
  split; [apply split_last_piece|]. by apply String.eqb_neq in E.
Qed.

(** X16: for a URI without any dot the extension is the whole URI. *)
Theorem file_extension_of_dotless (uri : string) :
  includes "." uri = false -> uri <> "" -> file_extension uri = uri.
Proof.
  intros Hd Hne. unfold file_extension, split.
  rewrite (split_chars_none _ _ Hd). cbn. rewrite unchars_chars.
  apply String.eqb_neq in Hne. by rewrite Hne.
Qed.

Lemma file_extension_of_dotless_witness :
  file_extension "content://media/external/images/media/42"
  = "content://media/external/images/media/42".
Proof. apply file_extension_of_dotless; [reflexivity | discriminate]. Defined.

(** ** What Reject and Accept never do *)

Lemma store_evidence_frame (env : Env) (id : Z) (imageUri : string) (c : Coords)
    (address : string) (w : World) :
  let w' := fst (store_evidence env id imageUri c address w) in
  (forall key o, bucket w !! key = Some o -> bucket w' !! key = Some o) /\
  (forall j, j <> id -> table w' !! j = table w !! j) /\
  dom (table w') = dom (table w).
Proof.
  cbv zeta. rewrite store_evidence_run. cbv zeta.
  destruct (fetched env imageUri); [| done].
  destruct (upload_error env); [done|].
  destruct (bucket w !! upload_key env imageUri) eqn:Ek; [done|].
  destruct (update_error env); cbn [fst table bucket].
  - split; [| done]. intros key o Ho.
    rewrite lookup_insert_ne; [done | congruence].
  - split; [| split].
    + intros key o Ho. rewrite lookup_insert_ne; [done | congruence].
    + intros j Hj. by rewrite lookup_alter_ne.
    + apply dom_alter_L.
Qed.

Lemma handleImageSelection_frame (env : Env) (id : Z) (cd : option ComplaintData)
    (source : Source) (w : World) :
  let w' := handleImageSelection env id cd source w in
  (forall key o, bucket w !! key = Some o -> bucket w' !! key = Some o) /\
  (forall j, j <> id -> table w' !! j = table w !! j) /\
  dom (table w') = dom (table w).
Proof.
  cbv zeta. rewrite handleImageSelection_run, handleImageSelection_try_run.
  destruct (launch_picker env source w) as [w1 r1] eqn:E1.
  destruct (quiet_stores _ _ _ _ (launch_picker_quiet env source) E1) as (T1 & B1 & _).
  destruct r1 as [result| |e]; cbn [logged table bucket];
    [| by rewrite T1, B1 | by rewrite T1, B1].
  destruct (picked result) as [asset|]; [| by rewrite T1, B1].
  destruct (resolve_coordinates env (exif asset) w1) as [w2 r2] eqn:E2.
  destruct (quiet_stores _ _ _ _ (resolve_coordinates_quiet env (exif asset)) E2)
    as (T2 & B2 & _).
  destruct r2 as [[c|]| |e]; cbn [logged table bucket];
    [| by rewrite T2, B2, T1, B1 ..].
  pose proof (store_evidence_frame env id (uri asset) c (address_for env c)
                (logged [Called (ReverseGeocode c)] w2)) as H.
  cbv zeta in H. cbn [logged table bucket] in H. rewrite T2, B2, T1, B1 in H.
  by destruct (store_evidence env id (uri asset) c (address_for env c)
                 (logged [Called (ReverseGeocode c)] w2)) as [w3 [[]| |e]].
Qed.

(** X17: whatever happens during Reject, an object that was in the bucket is
    still there, unchanged. *)
Theorem reject_keeps_stored_objects (env : Env) (id : Z) (w : World)
    (key : string) (o : StoredObject) :
  bucket w !! key = Some o -> bucket (handleRejectStatus env id w) !! key = Some o.
Proof.
  intros Ho. rewrite handleRejectStatus_run.
  destruct (handleRejectStatus_try env id w) as [w1 r1] eqn:E1.
  destruct (quiet_stores _ _ _ _ (handleRejectStatus_try_quiet env id) E1)
    as (T1 & B1 & _).
  destruct r1 as [cd| |e]; cbn [logged bucket]; [| by rewrite B1 ..].
  destruct (source_of (pressed env)) as [source|]; [| by rewrite B1].
  apply (handleImageSelection_frame env id cd source w1). by rewrite B1.
Qed.

Lemma reject_keeps_stored_objects_witness :
  bucket (handleRejectStatus (Scene.env None) 7 Sample.world_with_photo) !! "old.jpg"
  = Some Sample.old_photo.
Proof. apply reject_keeps_stored_objects. reflexivity. Defined.

(** X18: Reject and Accept never change, create or delete a row other than
    the one of their complaint id, and Accept never touches the bucket. *)
Theorem actions_touch_one_row (env : Env) (id : Z) (st : Status) (w : World) :
  (forall j, j <> id -> table (handleRejectStatus env id w) !! j = table w !! j) /\
  dom (table (handleRejectStatus env id w)) = dom (table w) /\
  (forall j, j <> id -> table (handleAcceptStatus env id st w) !! j = table w !! j) /\
  dom (table (handleAcceptStatus env id st w)) = dom (table w) /\
  bucket (handleAcceptStatus env id st w) = bucket w.
Proof.
  assert ((forall j, j <> id -> table (handleRejectStatus env id w) !! j = table w !! j) /\
          dom (table (handleRejectStatus env id w)) = dom (table w)) as [Hr Hd].
  { rewrite handleRejectStatus_run.
    destruct (handleRejectStatus_try env id w) as [w1 r1] eqn:E1.
    destruct (quiet_stores _ _ _ _ (handleRejectStatus_try_quiet env id) E1)
      as (T1 & B1 & _).
    destruct r1 as [cd| |e]; cbn [logged table]; [| by rewrite T1 ..].
    destruct (source_of (pressed env)) as [source|]; [| by rewrite T1].
    destruct (handleImageSelection_frame env id cd source w1) as (_ & Hj & Hdom).
    rewrite <- T1. done. }
  split; [exact Hr|]. split; [exact Hd|].
  destruct (update_error env) as [e|] eqn:E.
  - by rewrite (handleAcceptStatus_error env id st w e E).
  - rewrite (handleAcceptStatus_commit env id st w E). cbn [table bucket].
    split; [| split; [apply dom_alter_L | done]].
    intros j Hj. by rewrite lookup_alter_ne.
Qed.

(** X19: when the first entry of the geocoder has no street, city, region or
    country, the address is the empty text, not the placeholder. *)
Theorem address_of_blank_entry (env : Env) (c : Coords) (w : World)
    (loc : Address) (rest : list Address) :
  reverse_geocode env c = Resolved (loc :: rest) ->
  blank (street loc) -> blank (city loc) -> blank (region loc) -> blank (country loc) ->
  resolve_address env c w = (logged [Called (ReverseGeocode c)] w, Val "").
Proof.
  intros Hg Hs Hc Hr Hn. rewrite resolve_address_run. unfold address_for. rewrite Hg.
  by destruct Hs as [-> | ->], Hc as [-> | ->], Hr as [-> | ->], Hn as [-> | ->].
Qed.

Lemma address_of_blank_entry_witness :
  resolve_address Sample.env_nowhere Scene.here Scene.world
  = (logged [Called (ReverseGeocode Scene.here)] Scene.world, Val "").
Proof.
  apply (address_of_blank_entry Sample.env_nowhere Scene.here Scene.world Sample.nowhere []);
    [reflexivity | by left | by right | by left | by left].
Defined.

(** ** The home screen *)

#[local] Instance newest_first_total : Total Home.newest_first.
Proof. intros a b. unfold Home.newest_first. lia. Qed.

Lemma passes_unless (all sel value : string) :
  Home.passes (Home.unless all sel) value = true <-> sel = all \/ value = sel.
Proof.
  unfold Home.unless. destruct (String.eqb_spec sel all) as [->|Hne]; cbn.
  - split; auto.
  - rewrite String.eqb_eq. split; [auto | by intros [? | ?]].
Qed.

(** X20: when the list query succeeds, the home screen shows a row exactly
    when it is in the view and passes the status, state and city pills (a
    pill on all or All lets every row pass), newest first. *)
Theorem home_list_shows_wanted (view : list Home.ViewRow) (ans : Home.Answers)
    (s : Home.Screen) :
  Home.list_error ans = None ->
  (forall r, r ∈ Home.complaints (Home.fetchComplaintsAndCounts view ans s)
             <-> r ∈ view /\ wanted s r) /\
  Sorted Home.newest_first (Home.complaints (Home.fetchComplaintsAndCounts view ans s)).
Proof.
  intros He. unfold Home.fetchComplaintsAndCounts. cbn. rewrite He. split.
  - intros r. unfold Home.ordered. rewrite merge_sort_Permutation.
    rewrite list_elem_of_In, List.filter_In, <- list_elem_of_In.
    unfold Home.matches, wanted. cbn.
    rewrite !andb_true_iff, !passes_unless. tauto.
  - apply Sorted_merge_sort. apply _.
Qed.

Lemma home_list_shows_wanted_witness :
  Sorted Home.newest_first
    (Home.complaints (Home.fetchComplaintsAndCounts Sample.view Sample.answers Sample.home)).
Proof.
  exact (proj2 (home_list_shows_wanted Sample.view Sample.answers Sample.home eq_refl)).
Defined.

Lemma filter_disjoint_parts {A} (p q t : A -> bool) (l : list A) :
  (forall x, p x = true -> t x = true) ->
  (forall x, q x = true -> t x = true) ->
  (forall x, p x = true -> q x = false) ->
  (length (List.filter p l) + length (List.filter q l) <= length (List.filter t l))%nat.
Proof.
  intros Hp Hq Hpq. induction l as [|x l IH]; [done|]. cbn [List.filter].
  specialize (Hp x). specialize (Hq x). specialize (Hpq x).
  destruct (p x), (q x), (t x); cbn [length]; try lia;
    try (by specialize (Hp eq_refl)); try (by specialize (Hq eq_refl));
    by specialize (Hpq eq_refl).
Qed.

Lemma count_split (view : list Home.ViewRow) (state city : option string) :
  (length (List.filter (Home.matches {| Home.on_status := Some "open";
                                        Home.on_state := state; Home.on_city := city |}) view)
   + length (List.filter (Home.matches {| Home.on_status := Some "resolved";
                                          Home.on_state := state; Home.on_city := city |}) view)
   <= length (List.filter (Home.matches {| Home.on_status := None;
                                           Home.on_state := state; Home.on_city := city |}) view))%nat.
Proof.
  apply filter_disjoint_parts; intros r; unfold Home.matches; cbn.
  - by intros [[_ ->]%andb_true_iff ->]%andb_true_iff.
  - by intros [[_ ->]%andb_true_iff ->]%andb_true_iff.
  - intros [[Ho%String.eqb_eq _]%andb_true_iff _]%andb_true_iff. by rewrite Ho.
Qed.

(** X21: when the total count is answered, it is the number of rows of the
    selected state and city, whatever the status pill, and the open and
    resolved counts are not negative and together do not exceed it. *)
Theorem home_counts_nest (view : list Home.ViewRow) (ans : Home.Answers)
    (s : Home.Screen) :
  Home.total_fails ans = false ->
  let s' := Home.fetchComplaintsAndCounts view ans s in
  Home.totalCount s' = Z.of_nat (length (List.filter (in_place s) view)) /\
  0 <= Home.openCount s' /\ 0 <= Home.resolvedCount s' /\
  Home.openCount s' + Home.resolvedCount s' <= Home.totalCount s'.
Proof.
  intros Ht. cbv zeta. unfold Home.fetchComplaintsAndCounts. cbn.
  unfold Home.count_or_0. rewrite Ht.
  pose proof (count_split view (Home.unless "All" (Home.selectedState s))
                (Home.unless "All" (Home.selectedCity s))) as H.
  split; [reflexivity|].
  destruct (Home.open_fails ans), (Home.resolved_fails ans); lia.
Qed.

Lemma home_counts_nest_witness :
  Home.openCount (Home.fetchComplaintsAndCounts Sample.view Sample.answers Sample.home)
  + Home.resolvedCount (Home.fetchComplaintsAndCounts Sample.view Sample.answers Sample.home)
  <= Home.totalCount (Home.fetchComplaintsAndCounts Sample.view Sample.answers Sample.home).
Proof.
  exact (proj2 (proj2 (proj2
    (home_counts_nest Sample.view Sample.answers Sample.home eq_refl)))).
Defined.

(** X22: the open count asks for the status open: on a view whose statuses
    are pending, resolved and verified it is 0. *)
Theorem home_open_count_zero (view : list Home.ViewRow) (ans : Home.Answers)
    (s : Home.Screen) :
  Forall (fun r => Home.status r ∈ table_statuses) view ->
  Home.openCount (Home.fetchComplaintsAndCounts view ans s) = 0.
Proof.
  rewrite Forall_forall. intros Hv. unfold Home.fetchComplaintsAndCounts. cbn. unfold Home.count_or_0.
  destruct (Home.open_fails ans); [done|].
  replace (List.filter _ view) with (@nil Home.ViewRow); [done|].
  symmetry. induction view as [|r view IH]; [done|].
  cbn [List.filter]. rewrite <- IH by (intros r' Hr'; apply Hv; by right).
  unfold Home.matches. cbn [Home.on_status Home.passes].
  assert (Home.status r ∈ table_statuses) as Hs by (apply Hv; by left).
  unfold table_statuses in Hs.
  assert (String.eqb (Home.status r) "open" = false) as ->; [| done].
  apply String.eqb_neq. intros Ho. rewrite Ho in Hs.
  repeat (apply elem_of_cons in Hs as [Hs|Hs]; [discriminate|]).
  by apply elem_of_nil in Hs.
Qed.

Lemma home_open_count_zero_witness :
  Home.openCount (Home.fetchComplaintsAndCounts Sample.view Sample.answers Sample.home) = 0.
Proof.
  apply home_open_count_zero.
  apply (bool_decide_unpack (Forall (fun r => Home.status r ∈ table_statuses) Sample.view)).
  vm_compute. exact I.
Defined.

(** ** Title case *)

Lemma chars_join (sep : ascii) (parts : list string) :
  chars (Home.join sep parts) = join_chars sep (map chars parts).
Proof.
  induction parts as [|p [|q rest] IH]; [done | done |].
  change (Home.join sep (p :: q :: rest)) with (p ++ String sep (Home.join sep (q :: rest))).
  rewrite chars_app. change (chars (String sep ?s)) with (sep :: chars s).
  by rewrite IH.
Qed.

Lemma join_split_chars (sep : ascii) (l : list ascii) :
  join_chars sep (split_chars sep l) = l.
Proof.
  induction l as [|x l IH]; [done|]. cbn [split_chars].
  destruct (ascii_eqb x sep) eqn:E.
  - unfold ascii_eqb in E. apply Ascii.eqb_eq in E. subst x.
    pose proof (split_chars_nonempty sep l) as Hne.
    destruct (split_chars sep l) as [|p ps]; [done|]. cbn. by rewrite <- IH.
  - destruct (split_chars sep l) as [|p [|q ps]]; cbn in *; by rewrite <- IH.
Qed.

Lemma split_join_chars (sep : ascii) (parts : list (list ascii)) :
  parts <> [] ->
  Forall (fun p => existsb (ascii_eqb sep) p = false) parts ->
  split_chars sep (join_chars sep parts) = parts.
Proof.
  induction parts as [|p [|q rest] IH]; [done | |].
  - intros _ Hp. inversion Hp; subst. cbn. by apply split_chars_none.
  - intros _ Hp. inversion Hp as [|? ? Hp1 Hp2]; subst.
    change (join_chars sep (p :: q :: rest))
      with (p ++ sep :: join_chars sep (q :: rest))%list.
    rewrite (split_chars_first _ _ _ Hp1). by rewrite IH.
Qed.

Lemma join_unchars (sep : ascii) (parts : list string) :
  Home.join sep parts = unchars (join_chars sep (map chars parts)).
Proof. by rewrite <- chars_join, unchars_chars. Qed.

Lemma join_split (sep : ascii) (s : string) : Home.join sep (split sep s) = s.
Proof.
  rewrite join_unchars. unfold split. rewrite map_map.
  rewrite (map_ext _ id), map_id; [| intros p; apply chars_unchars].
  by rewrite join_split_chars, unchars_chars.
Qed.

Lemma split_join (sep : ascii) (parts : list string) :
  parts <> [] ->
  Forall (fun p => includes sep p = false) parts ->
  split sep (Home.join sep parts) = parts.
Proof.
  intros Hne Hp. unfold split. rewrite chars_join, split_join_chars.
  - rewrite map_map. rewrite (map_ext _ id), map_id; [done|].
    intros p. apply unchars_chars.
  - by destruct parts.
  - apply Forall_forall. intros p [q [<- Hq]]%list_elem_of_In%in_map_iff.
    rewrite Forall_forall in Hp. apply (Hp q).
    by apply list_elem_of_In.
Qed.

Lemma toUpperCase_idem (c : ascii) :
  Home.toUpperCase (Home.toUpperCase c) = Home.toUpperCase c.
Proof. by destruct c as [[] [] [] [] [] [] [] []]. Qed.

Lemma toUpperCase_space (c : ascii) :
  ascii_eqb " " (Home.toUpperCase c) = ascii_eqb " " c.
Proof. by destruct c as [[] [] [] [] [] [] [] []]. Qed.

Lemma capitalize_idem (w : string) : Home.capitalize (Home.capitalize w) = Home.capitalize w.
Proof. destruct w as [|c r]; [done|]. cbn. by rewrite toUpperCase_idem. Qed.

Lemma capitalize_space (w : string) :
  includes " " (Home.capitalize w) = includes " " w.
Proof.
  destruct w as [|c r]; [done|]. unfold includes. cbn [Home.capitalize].
  change (chars (String ?a r)) with (a :: chars r).
  cbn [existsb]. by rewrite toUpperCase_space.
Qed.

Lemma capitalize_length (w : string) :
  String.length (Home.capitalize w) = String.length w.
Proof. by destruct w. Qed.

Lemma split_pieces (sep : ascii) (s : string) :
  Forall (fun p => includes sep p = false) (split sep s).
Proof.
  unfold split, includes. apply Forall_forall.
  intros p [q [<- Hq]]%list_elem_of_In%in_map_iff. rewrite chars_unchars.
  pose proof (split_chars_pieces sep (chars s)) as H. rewrite Forall_forall in H.
  apply H. by apply list_elem_of_In.
Qed.

Lemma split_nonempty (sep : ascii) (s : string) : split sep s <> [].
Proof.
  unfold split. pose proof (split_chars_nonempty sep (chars s)).
  by destruct (split_chars sep (chars s)).
Qed.

Lemma length_append (a b : string) :
  String.length (a ++ b) = (String.length a + String.length b)%nat.
Proof. induction a as [|c a IH]; [done|]. simpl. by rewrite IH. Qed.

Lemma length_join_map (sep : ascii) (f : string -> string) (parts : list string) :
  (forall p, String.length (f p) = String.length p) ->
  String.length (Home.join sep (map f parts)) = String.length (Home.join sep parts).
Proof.
  intros Hf. induction parts as [|p [|q rest] IH]; [done | apply Hf |].
  change (Home.join sep (map f (p :: q :: rest)))
    with (f p ++ String sep (Home.join sep (map f (q :: rest)))).
  change (Home.join sep (p :: q :: rest)) with (p ++ String sep (Home.join sep (q :: rest))).
  rewrite !length_append. cbn [String.length]. by rewrite IH, Hf.
Qed.

Lemma makeTitleCase_split (s : string) :
  split " " (Home.makeTitleCase s) = map Home.capitalize (split " " s).
Proof.
  unfold Home.makeTitleCase. apply split_join.
  - pose proof (split_nonempty " " s). by destruct (split " " s).
  - apply Forall_forall. intros p [q [<- Hq]]%list_elem_of_In%in_map_iff.
    rewrite capitalize_space.
    pose proof (split_pieces " " s) as H. rewrite Forall_forall in H.
    apply H. by apply list_elem_of_In.
Qed.

(** X23: title-casing an ASCII text keeps its length and its spaces: the
    words of the result are the capitalized words of the text, one for
    one. *)
Theorem makeTitleCase_keeps_words (s : string) :
  ascii_text s ->
  split " " (Home.makeTitleCase s) = map Home.capitalize (split " " s) /\
  String.length (Home.makeTitleCase s) = String.length s.
Proof.
  intros _. split; [apply makeTitleCase_split|].
  unfold Home.makeTitleCase.
  rewrite (length_join_map _ _ _ capitalize_length). by rewrite join_split.
Qed.

Lemma makeTitleCase_keeps_words_witness :
  split " " (Home.makeTitleCase "new  delhi") = map Home.capitalize (split " " "new  delhi") /\
  String.length (Home.makeTitleCase "new  delhi") = String.length "new  delhi".
Proof.
  apply makeTitleCase_keeps_words. reflexivity.
Defined.

(** X24: title-casing an ASCII text twice is title-casing it once. *)
Theorem makeTitleCase_idempotent (s : string) :
  ascii_text s ->
  Home.makeTitleCase (Home.makeTitleCase s) = Home.makeTitleCase s.
Proof.
  intros _. unfold Home.makeTitleCase at 1. rewrite makeTitleCase_split.
  rewrite map_map. unfold Home.makeTitleCase. f_equal.
  apply map_ext. intros p. apply capitalize_idem.
Qed.

Lemma makeTitleCase_idempotent_witness :
  Home.makeTitleCase (Home.makeTitleCase "uttar pradesh") = Home.makeTitleCase "uttar pradesh".
Proof.
  apply makeTitleCase_idempotent. reflexivity.
Defined.

(** ** The list of the profile screen *)

#[local] Instance profile_newest_first_total : Total Profile.newest_first.
Proof.
  intros a b. unfold Profile.newest_first.
  destruct (Profile.stamp (Columns.created_at a.2)), (Profile.stamp (Columns.created_at b.2));
    try tauto. lia.
Qed.

Lemma rows_of_elem (author : string) (rows : gmap Z Complaint) (id : Z) (c : Complaint) :
  (id, c) ∈ Profile.rows_of author rows <-> rows !! id = Some c /\ Columns.created_by c = author.
Proof.
  unfold Profile.rows_of. rewrite merge_sort_Permutation.
  rewrite list_elem_of_In, List.filter_In, <- list_elem_of_In.
  rewrite elem_of_map_to_list. cbn. by rewrite String.eqb_eq.
Qed.

(** X25: after a refresh that succeeds for a signed-in user, the list of the
    profile screen holds a row exactly when it is in the table and was
    created by that user, newest first and each id once. *)
Theorem profile_list_is_own_rows (rows : gmap Z Complaint) (s : Profile.Screen)
    (id : Z) (c : Complaint) :
  Profile.email s <> "" ->
  ((id, c) ∈ Profile.userComplaints (Profile.fetchUserComplaints rows None s)
   <-> rows !! id = Some c /\ Columns.created_by c = Profile.email s) /\
  Sorted Profile.newest_first
    (Profile.userComplaints (Profile.fetchUserComplaints rows None s)) /\
  NoDup (Profile.userComplaints (Profile.fetchUserComplaints rows None s)).*1.
Proof.
  intros He%String.eqb_neq. unfold Profile.fetchUserComplaints. rewrite He. cbn.
  split; [apply rows_of_elem|]. split.
  - unfold Profile.rows_of. apply Sorted_merge_sort. apply _.
  - unfold Profile.rows_of. rewrite merge_sort_Permutation.
    assert (forall l : list (Z * Complaint), NoDup l.*1 ->
              NoDup (List.filter (fun r => String.eqb (Columns.created_by r.2) (Profile.email s)) l).*1)
      as Hf.
    { induction l as [|x l IH]; [done|]. cbn [fmap list_fmap List.filter].
      intros [Hx Hl]%NoDup_cons.
      destruct (String.eqb (Columns.created_by x.2) (Profile.email s)); [| by apply IH].
      cbn. apply NoDup_cons. split; [| by apply IH].
      intros Hin. apply Hx. apply list_elem_of_fmap in Hin as (y & -> & Hy).
      apply list_elem_of_fmap. exists y. split; [done|].
      apply list_elem_of_In, List.filter_In in Hy as [Hy _]. by apply list_elem_of_In. }
    apply Hf, NoDup_fst_map_to_list.
Qed.

Lemma profile_list_is_own_rows_witness :
  (7, Scene.row) ∈ Profile.userComplaints
                     (Profile.fetchUserComplaints (table Scene.world) None Sample.profile)
  <-> table Scene.world !! 7 = Some Scene.row
      /\ Columns.created_by Scene.row = Profile.email Sample.profile.
Proof.
  apply (profile_list_is_own_rows (table Scene.world) Sample.profile 7 Scene.row).
  discriminate.
Defined.

(** X26: after Accept on a complaint of the user has committed within two
    seconds of the clock of the device and the list is refreshed, the list
    holds the complaint as verified, with no confirmation due. *)
Theorem accepted_complaint_in_list (env : Env) (id : Z) (st : Status) (w : World)
    (c : Complaint) (s : Profile.Screen) :
  table w !! id = Some c ->
  Columns.created_by c = Profile.email s -> Profile.email s <> "" ->
  update_error env = None ->
  commit_time env <= new_date env + 2000 ->
  exists c',
    (id, c') ∈ Profile.userComplaints
                 (Profile.fetchUserComplaints
                    (table (handleAcceptStatus env id st w)) None s) /\
    Columns.status c' = verified /\
    forall now, isRecentlyUpdated now c' = false.
Proof.
  intros Hc Hby He Hu Hlt.
  apply String.eqb_neq in He. unfold Profile.fetchUserComplaints. rewrite He. cbn.
  rewrite (handleAcceptStatus_commit env id st w Hu). cbn [table].
  exists (write_row (commit_time env) (accept_patch (futureDate env)) c).
  split; [| split; [done|]].
  - apply rows_of_elem. split; [by rewrite lookup_alter_eq, Hc | done].
  - intros now. erewrite isRecentlyUpdated_at; [| reflexivity | reflexivity].
    apply andb_false_iff. left. apply Z.ltb_ge. unfold futureDate. lia.
Qed.

Lemma accepted_complaint_in_list_witness :
  exists c',
    (7, c') ∈ Profile.userComplaints
                (Profile.fetchUserComplaints
                   (table (handleAcceptStatus (Scene.env None) 7 pending Scene.world))
                   None Sample.profile) /\
    Columns.status c' = verified /\
    forall now, isRecentlyUpdated now c' = false.
Proof.
  apply (accepted_complaint_in_list (Scene.env None) 7 pending Scene.world Scene.row
           Sample.profile); [reflexivity | reflexivity | discriminate | reflexivity |].
  cbn. lia.
Defined.

(** ** The submission of a new complaint *)

(** X27: a submission inserts at most one row, and only a complete one: its
    title and description are those of the form and not empty, its user
    is the one signed in, and its image is the object stored by this
    submission under a key that was free; only then does the screen go
    back. *)
Theorem submit_inserts_complete_rows (ans : Submit.Answers) (f : Submit.Form)
    (w : Submit.World) :
  let w' := Submit.handleSubmit ans f w in
  Submit.inserted w' = Submit.inserted w /\ Submit.went_back w' = Submit.went_back w
  \/
  exists row key o,
    Submit.inserted w' = (Submit.inserted w ++ [row])%list /\
    Submit.went_back w' = true /\
    Submit.new_title row = Submit.title f /\ Submit.new_title row <> "" /\
    Submit.new_description row = Submit.description f /\
    Submit.new_description row <> "" /\
    Submit.session_user ans = Resolved (Some (Submit.user_id row)) /\
    Submit.image_url row = Submit.public_url_of ans key /\
    Submit.objects w !! key = None /\
    Submit.objects w' = <[key := o]> (Submit.objects w).
Proof.
  cbv zeta. unfold Submit.handleSubmit, Submit.complete.
  destruct (Submit.imageUri f) as [uri|]; [| by left].
  destruct (Submit.location f) as [pos|]; [| by left].
  destruct (Submit.nonempty (Submit.title f) && Submit.nonempty (Submit.description f)
            && Submit.nonempty uri) eqn:E; [| by left].
  apply andb_true_iff in E as [[Ht Hd]%andb_true_iff _].
  unfold Submit.nonempty in Ht, Hd.
  apply negb_true_iff, String.eqb_neq in Ht. apply negb_true_iff, String.eqb_neq in Hd.
  unfold Submit.handleSubmit_try.
  destruct (Submit.session_user ans) as [[userId|]|e]; [| by left | by left].
  destruct (Submit.fetched_blob ans uri) as [[body blob_type]|e]; [| by left].
  destruct (Submit.upload_refused ans); [by left|]. cbn [Submit.setUploading Submit.objects].
  destruct (Submit.objects w !! _) eqn:Ek; [by left|].
  destruct (Submit.insert_refused ans); [by left|].
  right. eexists _, _, _. cbn. repeat split; try done.
Qed.

(** X28: every submission shows exactly one alert, the success alert exactly
    when a row was inserted; an incomplete form does nothing else, and
    after a complete one the uploading flag is off. *)
Theorem submit_alerts_once (ans : Submit.Answers) (f : Submit.Form) (w : Submit.World) :
  let w' := Submit.handleSubmit ans f w in
  (exists h m, Submit.shown w' = (Submit.shown w ++ [(h, m)])%list /\
     (h = "Success" <-> Submit.inserted w' <> Submit.inserted w)) /\
  (Submit.complete f <> None -> Submit.uploading w' = false) /\
  (Submit.complete f = None -> w' = Submit.alert "Missing Information"
       "Please fill all fields and select an image." w).
Proof.
  cbv zeta. unfold Submit.handleSubmit.
  destruct (Submit.complete f) as [[uri pos]|]; cbn.
  2: { split; [| done]. eexists _, _. split; [done|]. split; [done|]. done. }
  unfold Submit.handleSubmit_try.
  assert (forall l (x : Submit.NewComplaint), (l ++ [x])%list <> l) as Hneq.
  { intros l x H. apply (f_equal length) in H. rewrite length_app in H. cbn in H. lia. }
  destruct (Submit.session_user ans) as [[userId|]|e]; cbn.
  2,3: (split; [| done]; eexists _, _; split; [done|]; split; [done|]; done).
  destruct (Submit.fetched_blob ans uri) as [[body blob_type]|e]; cbn.
  2: (split; [| done]; eexists _, _; split; [done|]; split; [done|]; done).
  destruct (Submit.upload_refused ans); cbn.
  1: (split; [| done]; eexists _, _; split; [done|]; split; [done|]; done).
  destruct (Submit.objects w !! _); cbn.
  1: (split; [| done]; eexists _, _; split; [done|]; split; [done|]; done).
  destruct (Submit.insert_refused ans); cbn.
  1: (split; [| done]; eexists _, _; split; [done|]; split; [done|]; done).
  split; [| done]. eexists _, _. split; [done|]. split; [intros _; apply Hneq | done].
Qed.
